(** * switchboardv2-api: the crank selector, the pop account list, decimals
      and account wrappers of [src/sbv2.ts]

    The development embeds the TypeScript of [src/sbv2.ts] as Rocq functions.
    Asynchronous methods become functions of an explicit [World] (the wall
    clock and the remote account store) that either return a value or throw.
    What the code takes from its run time (JavaScript's relational operators
    on objects, [Array.prototype.sort], [BN], [Buffer]) is modelled the way
    the run time behaves, since several properties of the code hinge on it. *)

From Stdlib Require Import ZArith List String Ascii Bool Lia.
From Stdlib Require Import Sorted Permutation.
From Stdlib Require Import DecimalString DecimalZ DecimalPos.
From Stdlib Require Import QArith Qpower.
From Stdlib Require Import Floats Uint63.
From Stdlib Require Strings.Byte.
Import ListNotations.

Open Scope Z_scope.

(* ================================================================== *)
(** * 1. JavaScript run-time values                                    *)
(* ================================================================== *)

(** A thrown JavaScript exception: [new Error(msg)] or a [TypeError]. *)
Inductive JsError : Type :=
| Error (message : string)
| TypeError (message : string).

(** The outcome of evaluating a call: a value, or a thrown exception. *)
Inductive Completion (A : Type) : Type :=
| Return (a : A)
| Throw (e : JsError).
Arguments Return {A} a.
Arguments Throw {A} e.

Definition is_return {A} (c : Completion A) : bool :=
  match c with Return _ => true | Throw _ => false end.

(** [Buffer] / [Uint8Array]: a sequence of bytes. *)
Definition Buffer : Type := list Byte.byte.

(** [Buffer.from(s)] for an ASCII string. *)
Definition Buffer_from (s : string) : Buffer := list_byte_of_string s.

Definition byte_val (b : Byte.byte) : N := Byte.to_N b.

(** [a.compare(b)] on Buffers: unsigned byte-wise comparison, the shorter
    buffer first when one is a prefix of the other; the result is -1, 0 or 1. *)
Fixpoint Buffer_compare (a b : Buffer) : Z :=
  match a, b with
  | [], [] => 0
  | [], _ :: _ => -1
  | _ :: _, [] => 1
  | x :: a', y :: b' =>
      match N.compare (byte_val x) (byte_val y) with
      | Lt => -1
      | Gt => 1
      | Eq => Buffer_compare a' b'
      end
  end.

(** [anchor.BN]: an arbitrary-precision integer.  [toString()] prints it in
    base 10 with a leading minus sign for negative values. *)
Definition BN : Type := Z.

Definition BN_toString (b : BN) : string := NilZero.string_of_int (Z.to_int b).

(** [a.eq(b)] on BN: equality of the integers. *)
Definition BN_eq (a b : BN) : bool := Z.eqb a b.

(** JavaScript's [<] and [<=] applied to two objects (ECMAScript IsLessThan)
    convert both operands with ToPrimitive, hint number: [valueOf] is tried
    first, and [BN] inherits [Object.prototype.valueOf], which returns the
    object itself, so [toString] is called next.  Both operands are then
    strings, and strings are compared code unit by code unit, a proper prefix
    first: "90" <= "150" is false.  ([BN] offers [lt], [lte] and [cmp] for the
    numeric order; the code does not call them here.) *)
Definition BN_js_lt (a b : BN) : bool := String.ltb (BN_toString a) (BN_toString b).
Definition BN_js_le (a b : BN) : bool := String.leb (BN_toString a) (BN_toString b).

(** ToNumber of a boolean, as [Array.prototype.sort] applies it to the value
    its comparator returns. *)
Definition ToNumber_bool (b : bool) : Z := if b then 1 else 0.

(** A JavaScript number, IEEE-754 binary64. *)
Definition number : Type := float.

(** The number holding an integer; exact below 2^53 in absolute value. *)
Definition number_of_Z (z : Z) : number :=
  match z with
  | Z0 => 0%float
  | Zpos _ => PrimFloat.of_uint63 (Uint63.of_Z z)
  | Zneg p => PrimFloat.opp (PrimFloat.of_uint63 (Uint63.of_Z (Zpos p)))
  end.

(** [bn.toNumber()]: bn.js asserts that the value fits in 53 bits and throws
    otherwise. *)
Definition BN_toNumber (b : BN) : Completion number :=
  if Z.abs b <? 2 ^ 53
  then Return (number_of_Z b)
  else Throw (Error "Number can only safely store up to 53 bits").

(** The exact rational a finite binary64 value denotes (None for NaN and the
    infinities). *)
Definition number_exact (x : number) : option Q :=
  match Prim2SF x with
  | S754_zero _ => Some 0%Q
  | S754_finite s m e =>
      let v := (inject_Z (Zpos m) * Qpower 2 e)%Q in
      Some (if s then Qopp v else v)
  | _ => None
  end.

(* ------------------------------------------------------------------ *)
(** ** Arrays                                                          *)
(* ------------------------------------------------------------------ *)

(** [arr.slice(0, end)] for an integer [end]: a negative [end] counts from the
    end of the array, and the bound is clamped to the array. *)
Definition Array_slice0 {A} (end_ : Z) (arr : list A) : list A :=
  let len := Z.of_nat (List.length arr) in
  let final := if end_ <? 0 then Z.max (len + end_) 0 else Z.min end_ len in
  firstn (Z.to_nat final) arr.

(** [Array.prototype.sort(comparefn)] as V8 (Node.js 11 and later) runs it,
    after builtins/array-sort.tq.  V8 finds the run that starts the array
    ([CountAndMakeRun]: non-descending, or strictly descending and then
    reversed) and inserts each later element into the sorted prefix by binary
    search ([BinaryInsertionSort]).  Both test only whether the comparator's
    number is negative.  This is V8's whole algorithm for arrays of fewer
    than 64 elements; longer arrays are cut into several such runs that are
    merged stably, which gives the same array whenever the comparator is a
    consistent order (a stable sort's result is unique) and whenever the
    comparator is never negative (the first run is then the whole array). *)
Section ArraySort.
Context {A : Type} (comparefn : A -> A -> Z).

(** The number of elements after [prev] that continue the run. *)
Fixpoint run_continue (isDescending : bool) (prev : A) (rest : list A) : nat :=
  match rest with
  | [] => O
  | cur :: rest' =>
      let order := comparefn cur prev in
      if isDescending
      then (if order <? 0 then S (run_continue isDescending cur rest') else O)
      else (if order <? 0 then O else S (run_continue isDescending cur rest'))
  end.

(** [CountAndMakeRun]: the run's length and whether it is descending. *)
Definition CountAndMakeRun (arr : list A) : nat * bool :=
  match arr with
  | [] => (O, false)
  | [_] => (1%nat, false)
  | elementHigh :: elementLow :: rest =>
      let isDescending := comparefn elementLow elementHigh <? 0 in
      (S (S (run_continue isDescending elementLow rest)), isDescending)
  end.

(** The binary search of [BinaryInsertionSort]: the index in [left, right]
    at which [pivot] is inserted into the sorted prefix. *)
Fixpoint binary_search (fuel : nat) (pivot : A) (sorted : list A)
         (left right : nat) : nat :=
  match fuel with
  | O => left
  | S fuel' =>
      if (left <? right)%nat then
        let mid := (left + (right - left) / 2)%nat in
        match nth_error sorted mid with
        | Some x =>
            if comparefn pivot x <? 0
            then binary_search fuel' pivot sorted left mid
            else binary_search fuel' pivot sorted (S mid) right
        | None => left
        end
      else left
  end.

Definition insert_at (i : nat) (pivot : A) (sorted : list A) : list A :=
  firstn i sorted ++ pivot :: skipn i sorted.

Definition insert_pivot (sorted : list A) (pivot : A) : list A :=
  insert_at (binary_search (List.length sorted) pivot sorted O (List.length sorted))
            pivot sorted.

Definition BinaryInsertionSort (sorted rest : list A) : list A :=
  fold_left insert_pivot rest sorted.

Definition Array_sort (arr : list A) : list A :=
  let '(runLength, isDescending) := CountAndMakeRun arr in
  let run := firstn runLength arr in
  BinaryInsertionSort (if isDescending then rev run else run)
                      (skipn runLength arr).
End ArraySort.

(* ================================================================== *)
(** * 2. External collaborators                                        *)
(* ================================================================== *)

(** [PublicKey] of @solana/web3.js: an object (with its identity, which
    [===] and [!==] compare) holding the address bytes. *)
Record PublicKey : Type := mkPublicKey {
  object_id : nat;
  toBuffer : Buffer
}.

Definition toBytes (k : PublicKey) : Buffer := toBuffer k.

(** [a === b] on two PublicKey objects: the same object. *)
Definition strict_equal (a b : PublicKey) : bool :=
  Nat.eqb (object_id a) (object_id b).

(** [Keypair]: the object a read of its [publicKey] property yields, and the
    secret key.  (The Keypair of @solana/web3.js builds that object when the
    property is read, so a caller does not hold it beforehand.) *)
Record Keypair : Type := mkKeypair {
  keypair_publicKey : PublicKey;
  secretKey : Buffer
}.

(** A transaction signature returned by the ledger client. *)
Definition TransactionSignature : Type := string.

(** Decoded account records, with the fields the code reads. *)
Record CrankRow : Type := mkCrankRow {
  pubkey : PublicKey;
  nextTimestamp : BN
}.

Record CrankAccountData : Type := mkCrankAccountData {
  pqData : list CrankRow;
  pqSize : Z;
  queuePubkey : PublicKey
}.

Record LeaseAccountData : Type := mkLeaseAccountData {
  escrow : PublicKey
}.

(** The code calls [toNumber()] on both fields of a round's result, so both
    are [BN] values. *)
Record DecimalData : Type := mkDecimalData {
  data_mantissa : BN;
  data_scale : BN
}.

Record AggregatorRound : Type := mkAggregatorRound {
  numSuccess : option Z;
  result : DecimalData
}.

Record AggregatorAccountData : Type := mkAggregatorAccountData {
  latestConfirmedRound : option AggregatorRound
}.

(** One entry of [remainingAccounts] as passed to [rpc.crankPop]. *)
Record AccountMeta : Type := mkAccountMeta {
  isSigner : bool;
  isWritable : bool;
  meta_pubkey : PublicKey
}.

(** The call [program.rpc.crankPop(args, ctx)] makes to the ledger client. *)
Record CrankPopCall : Type := mkCrankPopCall {
  stateBump : Z;
  acc_crank : PublicKey;
  acc_oracleQueue : PublicKey;
  acc_programState : PublicKey;
  acc_payoutWallet : PublicKey;
  remainingAccounts : list AccountMeta
}.

(** The state outside the process: the wall clock read by [Date.now()]
    (milliseconds), the remote account store read by
    [program.account.<kind>.fetch(address)], and the ledger client. *)
Record World : Type := mkWorld {
  Date_now : Z;
  crankAccountData_fetch : Buffer -> Completion CrankAccountData;
  leaseAccountData_fetch : Buffer -> Completion LeaseAccountData;
  aggregatorAccountData_fetch : Buffer -> Completion AggregatorAccountData;
  rpc_crankPop : CrankPopCall -> Completion TransactionSignature
}.

(** Pure functions of the libraries the code calls, taken as parameters:
    - [findProgramAddressSync seeds programId] (anchor): the program-derived
      address and its bump, or a thrown error when no bump works; it reads
      the bytes of [programId];
    - [Buffer_js_lt a b]: JavaScript's [a < b] on two Buffers, which compares
      the strings [Buffer.prototype.toString] decodes from them;
    - [Math_pow]: [Math.pow]. *)
Record Lib : Type := mkLib {
  findProgramAddressSync : list Buffer -> Buffer -> Completion (PublicKey * Z);
  Buffer_js_lt : Buffer -> Buffer -> bool;
  Math_pow : number -> number -> number
}.

(** [anchor.Program]: the program's identity and the wallet of its provider. *)
Record Program : Type := mkProgram {
  programId : PublicKey;
  provider_wallet : PublicKey
}.

(** An [async] method: a function of the world that returns or throws. *)
Definition Async (A : Type) : Type := World -> Completion A.

Definition ret {A} (a : A) : Async A := fun _ => Return a.

Definition throw {A} (e : JsError) : Async A := fun _ => Throw e.

Definition bind {A B} (c : Async A) (k : A -> Async B) : Async B :=
  fun w => match c w with
           | Return a => k a w
           | Throw e => Throw e
           end.

(** A synchronous call that may throw, awaited or used inside an async body. *)
Definition lift {A} (c : Completion A) : Async A := fun _ => c.

(** Reading the world. *)
Definition ask {A} (f : World -> A) : Async A := fun w => Return (f w).
Definition call {A} (f : World -> Completion A) : Async A := fun w => f w.

Declare Scope async_scope.
Delimit Scope async_scope with async.
Notation "x <- c ;; k" := (bind c (fun x => k))
  (at level 61, c at next level, right associativity) : async_scope.
Notation "' p <- c ;; k" := (bind c (fun x => let 'p := x in k))
  (at level 61, p pattern, c at next level, right associativity) : async_scope.

(** [for (const x of items) { state = body(state, x) }] with awaits in the
    body: the first throw leaves the loop. *)
Fixpoint for_of {A S} (items : list A) (body : S -> A -> Async S) (s : S) : Async S :=
  match items with
  | [] => ret s
  | x :: items' => bind (body s x) (for_of items' body)
  end.

(* ================================================================== *)
(** * 3. src/sbv2.ts                                                   *)
(* ================================================================== *)

Local Open Scope async_scope.

(** ** class SwitchboardDecimal *)
Module SwitchboardDecimal.

(** [mantissa: anchor.BN] and [scale: number]; the scale is an integer
    (decoded from an unsigned field of the record). *)
Record t : Type := mk {
  mantissa : BN;
  scale : Z
}.

(** [eq(other)]: [this.mantissa.eq(other.mantissa) && this.scale === other.scale]. *)
Definition eq (this other : t) : bool :=
  BN_eq (mantissa this) (mantissa other) && (scale this =? scale other).

(** [toBig()]: [new Big(mantissa.toString()).times(new Big(`1e-${scale}`))],
    exact decimal arithmetic; big.js rejects the literal [1e--k] that a
    negative scale produces. *)
Definition toBig (this : t) : Completion Q :=
  if scale this <? 0
  then Throw (Error "[big.js] Invalid number")
  else Return (inject_Z (mantissa this) * Qpower 10 (- scale this))%Q.

End SwitchboardDecimal.

(** ** interface AccountParams and the account wrappers *)

Record AccountParams : Type := mkAccountParams {
  params_program : Program;
  params_publicKey : option PublicKey;
  params_keypair : option Keypair
}.

(** The fields every account wrapper class declares. *)
Record AccountWrapper : Type := mkAccountWrapper {
  program : Program;
  publicKey : PublicKey;
  keypair : option Keypair
}.

(** The constructor body, which the eight wrapper classes repeat verbatim;
    [constructor_name] is [this.constructor.name]. *)
Definition account_constructor (constructor_name : string) (params : AccountParams)
  : Completion AccountWrapper :=
  match params_keypair params, params_publicKey params with
  | None, None =>
      Throw (Error (constructor_name ++
        ": User must provide either a publicKey or keypair for account use."))
  | _, _ =>
      let mismatch :=
        match params_keypair params, params_publicKey params with
        | Some kp, Some pk => negb (strict_equal pk (keypair_publicKey kp))
        | _, _ => false
        end in
      if mismatch
      then Throw (Error (constructor_name ++ ": provided pubkey and keypair mismatch."))
      else
        (* this.publicKey = params.publicKey ?? this.keypair.publicKey *)
        match params_publicKey params with
        | Some pk =>
            Return (mkAccountWrapper (params_program params) pk (params_keypair params))
        | None =>
            match params_keypair params with
            | Some kp =>
                Return (mkAccountWrapper (params_program params)
                                         (keypair_publicKey kp) (params_keypair params))
            | None =>
                Throw (TypeError "Cannot read properties of undefined (reading 'publicKey')")
            end
        end
  end.

Module ProgramStateAccount.
Definition t : Type := AccountWrapper.

Definition new (params : AccountParams) : Completion t :=
  account_constructor "ProgramStateAccount" params.

(** [static async fromSeed(program)] *)
Definition fromSeed (L : Lib) (program : Program) : Async (t * Z) :=
  ' (statePubkey, stateBump) <-
      lift (findProgramAddressSync L [Buffer_from "SB_STATE_V1"]
                                   (toBuffer (programId program))) ;;
  account <- lift (new (mkAccountParams program (Some statePubkey) None)) ;;
  ret (account, stateBump).
End ProgramStateAccount.

Module AggregatorAccount.
Definition t : Type := AccountWrapper.

(** The class declares a static method [name], so [this.constructor.name]
    is that method and not the string ["AggregatorAccount"]; the message
    prefix is its source text, written here as a fixed string. *)
Definition constructor_name : string := "name(aggregator) { ... }".

Definition new (params : AccountParams) : Completion t :=
  account_constructor constructor_name params.

(** [async loadData()] *)
Definition loadData (this : t) : Async AggregatorAccountData :=
  call (fun w => aggregatorAccountData_fetch w (toBuffer (publicKey this))).

(** [aggregator.latestConfirmedRound?.numSuccess ?? 0] *)
Definition numSuccess_or_0 (aggregator : AggregatorAccountData) : Z :=
  match latestConfirmedRound aggregator with
  | Some round => match numSuccess round with Some n => n | None => 0 end
  | None => 0
  end.

(** [async getLatestValue(aggregator?)] *)
Definition getLatestValue (L : Lib) (this : t) (aggregator : option AggregatorAccountData)
  : Async number :=
  aggregator <- match aggregator with
                | Some a => ret a
                | None => loadData this
                end ;;
  if numSuccess_or_0 aggregator =? 0
  then throw (Error "Aggregator currently holds no value.")
  else
    match latestConfirmedRound aggregator with
    | Some round =>
        mantissa <- lift (BN_toNumber (data_mantissa (result round))) ;;
        scale <- lift (BN_toNumber (data_scale (result round))) ;;
        ret (PrimFloat.div mantissa (Math_pow L (number_of_Z 10) scale))
    | None =>
        throw (TypeError "Cannot read properties of undefined (reading 'result')")
    end.
End AggregatorAccount.

Module JobAccount.
Definition t : Type := AccountWrapper.
Definition new (params : AccountParams) : Completion t :=
  account_constructor "JobAccount" params.
End JobAccount.

Module PermissionAccount.
Definition t : Type := AccountWrapper.
Definition new (params : AccountParams) : Completion t :=
  account_constructor "PermissionAccount" params.
End PermissionAccount.

Module OracleQueueAccount.
Definition t : Type := AccountWrapper.
Definition new (params : AccountParams) : Completion t :=
  account_constructor "OracleQueueAccount" params.
End OracleQueueAccount.

Module LeaseAccount.
Definition t : Type := AccountWrapper.

Definition new (params : AccountParams) : Completion t :=
  account_constructor "LeaseAccount" params.

(** [static async fromSeed(program, leaser, target)] *)
Definition fromSeed (L : Lib) (program : Program) (leaser target : PublicKey)
  : Async (t * Z) :=
  ' (pubkey, bump) <-
      lift (findProgramAddressSync L
              [Buffer_from "lease_account"; toBytes leaser; toBytes target]
              (toBuffer (programId program))) ;;
  account <- lift (new (mkAccountParams program (Some pubkey) None)) ;;
  ret (account, bump).

(** [async loadData()] *)
Definition loadData (this : t) : Async LeaseAccountData :=
  call (fun w => leaseAccountData_fetch w (toBuffer (publicKey this))).
End LeaseAccount.

Module OracleAccount.
Definition t : Type := AccountWrapper.
Definition new (params : AccountParams) : Completion t :=
  account_constructor "OracleAccount" params.
End OracleAccount.

(** [interface CrankPopParams] *)
Record CrankPopParams : Type := mkCrankPopParams {
  payoutWallet : PublicKey
}.

Module CrankAccount.
Definition t : Type := AccountWrapper.

Definition new (params : AccountParams) : Completion t :=
  account_constructor "CrankAccount" params.

(** [async loadData()] *)
Definition loadData (this : t) : Async CrankAccountData :=
  call (fun w => crankAccountData_fetch w (toBuffer (publicKey this))).

(** The chain of array methods in [peakReady], for a loaded crank and the
    value [now] read from the clock. *)
Definition peakReady_items (L : Lib) (crank : CrankAccountData) (now : Z) (n : Z)
  : list PublicKey :=
  map pubkey
    (Array_sort
       (fun a b => ToNumber_bool (Buffer_js_lt L (toBytes (pubkey a)) (toBytes (pubkey b))))
       (Array_slice0 n
          (Array_sort
             (fun a b => ToNumber_bool (BN_js_lt (nextTimestamp a) (nextTimestamp b)))
             (filter
                (fun item => BN_js_le (nextTimestamp item) (now / 1000))
                (Array_slice0 (pqSize crank) (pqData crank)))))).

(** [async peakReady(n)] *)
Definition peakReady (L : Lib) (this : t) (n : Z) : Async (list PublicKey) :=
  crank <- loadData this ;;
  now <- ask Date_now ;;
  ret (peakReady_items L crank now n).

(** The body of the [for (const feedKey of peakAggKeys)] loop of [pop]. *)
Definition pop_loop_body (L : Lib) (this : t) (crank : CrankAccountData)
           (remainingAccounts : list PublicKey) (feedKey : PublicKey)
  : Async (list PublicKey) :=
  aggregatorAccount <-
    lift (AggregatorAccount.new (mkAccountParams (program this) (Some feedKey) None)) ;;
  ' (leaseAccount, _leaseBump) <-
    LeaseAccount.fromSeed L (program this) feedKey (queuePubkey crank) ;;
  lease <- LeaseAccount.loadData leaseAccount ;;
  ret (remainingAccounts ++ [publicKey leaseAccount; escrow lease]).

(** [remainingAccounts] of [pop] once the loop has run and the array has
    been sorted with [a.toBuffer().compare(b.toBuffer())]. *)
Definition pop_remainingAccounts (L : Lib) (this : t) (crank : CrankAccountData)
           (peakAggKeys : list PublicKey) : Async (list PublicKey) :=
  remainingAccounts <- for_of peakAggKeys (pop_loop_body L this crank) peakAggKeys ;;
  ret (Array_sort (fun a b => Buffer_compare (toBuffer a) (toBuffer b))
                  remainingAccounts).

(** The arguments [pop] hands to [program.rpc.crankPop]. *)
Definition pop_call (L : Lib) (this : t) (params : CrankPopParams) : Async CrankPopCall :=
  crank <- loadData this ;;
  peakAggKeys <- peakReady L this 10 ;;
  remainingAccounts <- pop_remainingAccounts L this crank peakAggKeys ;;
  ' (programStateAccount, stateBump) <- ProgramStateAccount.fromSeed L (program this) ;;
  ret (mkCrankPopCall stateBump (publicKey this) (queuePubkey crank)
         (publicKey programStateAccount) (payoutWallet params)
         (map (fun pubkey => mkAccountMeta false true pubkey) remainingAccounts)).

(** [async pop(params)] *)
Definition pop (L : Lib) (this : t) (params : CrankPopParams) : Async TransactionSignature :=
  c <- pop_call L this params ;;
  call (fun w => rpc_crankPop w c).
End CrankAccount.

(* ------------------------------------------------------------------ *)
(** ** The methods outside the crank path                              *)
(* ------------------------------------------------------------------ *)

(** [String(n)] for an integer-valued number of magnitude below 10^21: its
    decimal digits, with a minus sign when negative. *)
Definition Number_toString (n : Z) : string := NilZero.string_of_int (Z.to_int n).

(** [arr[i]] for an integer index: [undefined] outside the array. *)
Definition Array_get {A} (arr : list A) (i : Z) : option A :=
  if i <? 0 then None else nth_error arr (Z.to_nat i).

(** One entry of [program.idl.errors]. *)
Record IdlErrorCode : Type := mkIdlErrorCode {
  err_code : Z;
  err_name : string;
  err_msg : option string
}.

(** [program.idl], with the field [fromCode] reads; [errors] is optional in
    anchor's [Idl] type. *)
Record Idl : Type := mkIdl {
  errors : option (list IdlErrorCode)
}.

(** ** class SwitchboardError *)
Module SwitchboardError.

Record t : Type := mk {
  program : Program;
  name : string;
  code : Z;
  msg : option string
}.

(** The [for (const e of ...)] loop of [fromCode] and the throw after it. *)
Fixpoint fromCode_loop (program : Program) (code : Z) (errors : list IdlErrorCode)
  : Completion t :=
  match errors with
  | [] =>
      Throw (Error ("Could not find SwitchboardError for error code "
                      ++ Number_toString code))
  | e :: errors' =>
      if code =? err_code e
      then Return (mk program (err_name e) (err_code e) (err_msg e))
      else fromCode_loop program code errors'
  end.

(** [static fromCode(program, code)]; [idl] is [program.idl]. *)
Definition fromCode (program : Program) (idl : Idl) (code : Z) : Completion t :=
  fromCode_loop program code
    (match errors idl with Some es => es | None => [] end).

End SwitchboardError.

(** Further decoded account records, with the fields the code reads. *)
Record SbState : Type := mkSbState {
  tokenMint : PublicKey;
  tokenVault : PublicKey
}.

Record OracleAccountData : Type := mkOracleAccountData {
  oracle_queuePubkey : PublicKey
}.

Record OracleQueueAccountData : Type := mkOracleQueueAccountData {
  queue : list PublicKey;
  size : Z
}.

(** [interface VaultTransferParams] *)
Record VaultTransferParams : Type := mkVaultTransferParams {
  amount : BN
}.

(** [interface AggregatorOpenRoundParams] *)
Record AggregatorOpenRoundParams : Type := mkAggregatorOpenRoundParams {
  permissionAccount : PermissionAccount.t;
  oracleQueueAccount : OracleQueueAccount.t;
  openRound_payoutWallet : PublicKey
}.

(** The call [program.rpc.vaultTransfer(args, ctx)] makes. *)
Record VaultTransferCall : Type := mkVaultTransferCall {
  vt_stateBump : Z;
  vt_amount : BN;
  vt_state : PublicKey;
  vt_to : PublicKey;
  vt_vault : PublicKey;
  vt_authority : PublicKey
}.

(** The call [program.rpc.aggregatorOpenRound(args, ctx)] makes. *)
Record AggregatorOpenRoundCall : Type := mkAggregatorOpenRoundCall {
  or_stateBump : Z;
  or_leaseBump : Z;
  or_aggregator : PublicKey;
  or_oracleQueue : PublicKey;
  or_lease : PublicKey;
  or_escrow : PublicKey;
  or_program : PublicKey;
  or_programState : PublicKey;
  or_payoutWallet : PublicKey
}.

(** The call [program.rpc.oracleHeartbeat(args, ctx)] makes; [gcOracle] and
    the signer may be [undefined]. *)
Record OracleHeartbeatCall : Type := mkOracleHeartbeatCall {
  hb_oracle : PublicKey;
  hb_gcOracle : option PublicKey;
  hb_oracleQueue : PublicKey;
  hb_signers : list (option Keypair)
}.

(** The world together with the stores and ledger entry points the methods
    below use. *)
Record Ledger : Type := mkLedger {
  world : World;
  sbState_fetch : Buffer -> Completion SbState;
  oracleAccountData_fetch : Buffer -> Completion OracleAccountData;
  oracleQueueAccountData_fetch : Buffer -> Completion OracleQueueAccountData;
  rpc_vaultTransfer : VaultTransferCall -> Completion TransactionSignature;
  rpc_aggregatorOpenRound : AggregatorOpenRoundCall -> Completion TransactionSignature;
  rpc_oracleHeartbeat : OracleHeartbeatCall -> Completion TransactionSignature
}.

(** An [async] method over the ledger. *)
Definition OnLedger (A : Type) : Type := Ledger -> Completion A.

Definition ret_l {A} (a : A) : OnLedger A := fun _ => Return a.

Definition bind_l {A B} (c : OnLedger A) (k : A -> OnLedger B) : OnLedger B :=
  fun l => match c l with
           | Return a => k a l
           | Throw e => Throw e
           end.

(** An async method of the sections above, run in the ledger's world. *)
Definition in_world {A} (c : Async A) : OnLedger A := fun l => c (world l).

Definition call_l {A} (f : Ledger -> Completion A) : OnLedger A := fun l => f l.

Declare Scope ledger_scope.
Delimit Scope ledger_scope with ledger.
Notation "x <- c ;; k" := (bind_l c (fun x => k))
  (at level 61, c at next level, right associativity) : ledger_scope.
Notation "' p <- c ;; k" := (bind_l c (fun x => let 'p := x in k))
  (at level 61, p pattern, c at next level, right associativity) : ledger_scope.

Local Open Scope ledger_scope.

(** [ProgramStateAccount.loadData()] *)
Definition ProgramStateAccount_loadData (this : ProgramStateAccount.t) : OnLedger SbState :=
  call_l (fun l => sbState_fetch l (toBuffer (publicKey this))).

(** The arguments [vaultTransfer] hands to [program.rpc.vaultTransfer]. *)
Definition ProgramStateAccount_vaultTransfer_call
           (L : Lib) (this : ProgramStateAccount.t) (to : PublicKey)
           (authority : Keypair) (params : VaultTransferParams)
  : OnLedger VaultTransferCall :=
  ' (statePubkey, stateBump) <-
      in_world (lift (findProgramAddressSync L [Buffer_from "SB_STATE_V1"]
                        (toBuffer (programId (program this))))) ;;
  state <- ProgramStateAccount_loadData this ;;
  let vault := tokenVault state in
  ret_l (mkVaultTransferCall stateBump (amount params) statePubkey to vault
           (provider_wallet (program this))).

(** [ProgramStateAccount.vaultTransfer(to, authority, params)] *)
Definition ProgramStateAccount_vaultTransfer
           (L : Lib) (this : ProgramStateAccount.t) (to : PublicKey)
           (authority : Keypair) (params : VaultTransferParams)
  : OnLedger TransactionSignature :=
  c <- ProgramStateAccount_vaultTransfer_call L this to authority params ;;
  call_l (fun l => rpc_vaultTransfer l c).

(** The arguments [openRound] hands to [program.rpc.aggregatorOpenRound]. *)
Definition AggregatorAccount_openRound_call
           (L : Lib) (this : AggregatorAccount.t) (params : AggregatorOpenRoundParams)
  : OnLedger AggregatorOpenRoundCall :=
  ' (stateAccount, stateBump) <-
      in_world (ProgramStateAccount.fromSeed L (program this)) ;;
  ' (leaseAccount, leaseBump) <-
      in_world (LeaseAccount.fromSeed L (program this) (publicKey this)
                  (publicKey (oracleQueueAccount params))) ;;
  lease <- in_world (LeaseAccount.loadData leaseAccount) ;;
  let escrowPubkey := escrow lease in
  ret_l (mkAggregatorOpenRoundCall stateBump leaseBump (publicKey this)
           (publicKey (oracleQueueAccount params)) (publicKey leaseAccount)
           escrowPubkey (programId (program this)) (publicKey stateAccount)
           (openRound_payoutWallet params)).

(** [AggregatorAccount.openRound(params)] *)
Definition AggregatorAccount_openRound
           (L : Lib) (this : AggregatorAccount.t) (params : AggregatorOpenRoundParams)
  : OnLedger TransactionSignature :=
  c <- AggregatorAccount_openRound_call L this params ;;
  call_l (fun l => rpc_aggregatorOpenRound l c).

(** [OracleAccount.loadData()] *)
Definition OracleAccount_loadData (this : OracleAccount.t) : OnLedger OracleAccountData :=
  call_l (fun l => oracleAccountData_fetch l (toBuffer (publicKey this))).

(** [OracleQueueAccount.loadData()] *)
Definition OracleQueueAccount_loadData (this : OracleQueueAccount.t)
  : OnLedger OracleQueueAccountData :=
  call_l (fun l => oracleQueueAccountData_fetch l (toBuffer (publicKey this))).

(** The arguments [heartbeat] hands to [program.rpc.oracleHeartbeat]. *)
Definition OracleAccount_heartbeat_call (this : OracleAccount.t)
  : OnLedger OracleHeartbeatCall :=
  data <- OracleAccount_loadData this ;;
  queueAccount <-
    in_world (lift (OracleQueueAccount.new
                      (mkAccountParams (program this)
                         (Some (oracle_queuePubkey data)) None))) ;;
  queue_ <- OracleQueueAccount_loadData queueAccount ;;
  let lastPubkey :=
    if negb (size queue_ =? 0)
    then Array_get (queue queue_) (size queue_ - 1)
    else Some (publicKey this) in
  ret_l (mkOracleHeartbeatCall (publicKey this) lastPubkey (publicKey queueAccount)
           [keypair this]).

(** [OracleAccount.heartbeat()] *)
Definition OracleAccount_heartbeat (this : OracleAccount.t)
  : OnLedger TransactionSignature :=
  c <- OracleAccount_heartbeat_call this ;;
  call_l (fun l => rpc_oracleHeartbeat l c).

Local Close Scope ledger_scope.

(* ================================================================== *)
(** * 4. Notions used to state the properties                          *)
(* ================================================================== *)

(** A comparator is a consistent order when flipping its arguments flips its
    sign and "not after" is transitive (ECMAScript's consistent comparator). *)
Record consistent {A} (cmp : A -> A -> Z) : Prop := {
  consistent_flip : forall a b, cmp a b < 0 <-> 0 < cmp b a;
  consistent_trans : forall a b c, cmp a b <= 0 -> cmp b c <= 0 -> cmp a c <= 0
}.

(** [a] is placed no later than [b]. *)
Definition not_after {A} (cmp : A -> A -> Z) (a b : A) : Prop := cmp a b <= 0.

(** Unsigned lexicographic "less or equal" on byte strings, a prefix first. *)
Fixpoint lex_leb (a b : Buffer) : bool :=
  match a, b with
  | [], _ => true
  | _ :: _, [] => false
  | x :: a', y :: b' =>
      (byte_val x <? byte_val y)%N || ((byte_val x =? byte_val y)%N && lex_leb a' b')
  end.

(** The comparator [pop] sorts with. *)
Definition compare_keys (a b : PublicKey) : Z :=
  Buffer_compare (toBuffer a) (toBuffer b).

(** The test [item.nextTimestamp <= new anchor.BN(Math.floor(now / 1000))]. *)
Definition passes_filter (now_ms : Z) (item : CrankRow) : bool :=
  BN_js_le (nextTimestamp item) (now_ms / 1000).

(** What the selector returns once its two sorts are seen to do nothing:
    the rows of the first [pqSize] that pass the filter, in stored order,
    cut to [n]. *)
Definition stored_order_prefix (crank : CrankAccountData) (now_ms n : Z)
  : list PublicKey :=
  map pubkey
    (Array_slice0 n
       (filter (passes_filter now_ms) (Array_slice0 (pqSize crank) (pqData crank)))).

(** The numeric test the filter stands for: the row is due at [now_ms]. *)
Definition due (now_ms : Z) (item : CrankRow) : bool :=
  nextTimestamp item <=? now_ms / 1000.

(** Two integers print with the same number of characters. *)
Definition same_width (a b : BN) : Prop :=
  String.length (BN_toString a) = String.length (BN_toString b).

(** The value of a digit sequence, most significant digit first, by Horner's
    rule from [acc]. *)
Fixpoint horner (acc : N) (d : Decimal.uint) : N :=
  match d with
  | Decimal.Nil => acc
  | Decimal.D0 d => horner (10 * acc) d
  | Decimal.D1 d => horner (10 * acc + 1) d
  | Decimal.D2 d => horner (10 * acc + 2) d
  | Decimal.D3 d => horner (10 * acc + 3) d
  | Decimal.D4 d => horner (10 * acc + 4) d
  | Decimal.D5 d => horner (10 * acc + 5) d
  | Decimal.D6 d => horner (10 * acc + 6) d
  | Decimal.D7 d => horner (10 * acc + 7) d
  | Decimal.D8 d => horner (10 * acc + 8) d
  | Decimal.D9 d => horner (10 * acc + 9) d
  end%N.

(** The digits [BN_toString] prints for a non-negative integer. *)
Definition digits_of (z : Z) : Decimal.uint :=
  match z with
  | Zpos p => Pos.to_uint p
  | _ => Decimal.D0 Decimal.Nil
  end.

(** The seeds [pop] derives a target's lease address from. *)
Definition lease_seeds (crank : CrankAccountData) (feedKey : PublicKey) : list Buffer :=
  [Buffer_from "lease_account"; toBytes feedKey; toBytes (queuePubkey crank)].

(** The store returns the lease record of [feedKey]: its address derives to
    [leaseKey] and the record there holds [escrowKey]. *)
Definition funded (L : Lib) (this : CrankAccount.t) (crank : CrankAccountData)
           (w : World) (feedKey leaseKey escrowKey : PublicKey) : Prop :=
  (exists bump, findProgramAddressSync L (lease_seeds crank feedKey)
                  (toBuffer (programId (program this))) = Return (leaseKey, bump))
  /\ leaseAccountData_fetch w (toBuffer leaseKey) = Return (mkLeaseAccountData escrowKey).

(** The constructors of the eight account wrapper classes. *)
Definition wrapper_constructors : list (AccountParams -> Completion AccountWrapper) :=
  [ ProgramStateAccount.new; AggregatorAccount.new; JobAccount.new;
    PermissionAccount.new; OracleQueueAccount.new; LeaseAccount.new;
    CrankAccount.new; OracleAccount.new ].

(** Neither [publicKey] nor [keypair] is supplied. *)
Definition neither_supplied (params : AccountParams) : Prop :=
  params_keypair params = None /\ params_publicKey params = None.

(** Both are supplied and [publicKey] is not the object [keypair.publicKey]. *)
Definition not_same_object (params : AccountParams) : Prop :=
  exists kp pk,
    params_keypair params = Some kp /\ params_publicKey params = Some pk /\
    strict_equal pk (keypair_publicKey kp) = false.

(** The field the constructor stores: [params.publicKey ?? keypair.publicKey]. *)
Definition supplied_key (params : AccountParams) : option PublicKey :=
  match params_publicKey params with
  | Some pk => Some pk
  | None => option_map keypair_publicKey (params_keypair params)
  end.

(** The (address, bump) pair of what [fromSeed] returns. *)
Definition address_and_bump (c : Completion (AccountWrapper * Z))
  : Completion (PublicKey * Z) :=
  match c with
  | Return (account, bump) => Return (publicKey account, bump)
  | Throw e => Throw e
  end.

(** Strict unsigned lexicographic order on byte strings. *)
Definition lex_ltb (a b : Buffer) : bool := negb (lex_leb b a).

Definition Buffer_eqb (a b : Buffer) : bool := Buffer_compare a b =? 0.

(** [s] keeps some elements of [l], in their order in [l]. *)
Inductive subsequence {A : Type} : list A -> list A -> Prop :=
| subsequence_nil : forall l, subsequence [] l
| subsequence_keep : forall x s l, subsequence s l -> subsequence (x :: s) (x :: l)
| subsequence_skip : forall x s l, subsequence s l -> subsequence s (x :: l).

(** The rows of the first [pqSize] that pass the filter of [peakReady]. *)
Definition passing_rows (crank : CrankAccountData) (now_ms : Z) : list CrankRow :=
  filter (passes_filter now_ms) (Array_slice0 (pqSize crank) (pqData crank)).

(* ================================================================== *)
(** * 5. Concrete inputs                                               *)
(* ================================================================== *)

Module Sample.

(** A 32-byte address: 31 zero bytes and a last byte. *)
Definition addr (last : Byte.byte) : Buffer := repeat Byte.x00 31 ++ [last].

Definition key (id : nat) (last : Byte.byte) : PublicKey := mkPublicKey id (addr last).

Definition keyA : PublicKey := key 1 Byte.x0a.
Definition keyB : PublicKey := key 2 Byte.x0b.
Definition keyC : PublicKey := key 3 Byte.x0c.
Definition crankKey : PublicKey := key 10 Byte.xc0.
Definition queueKey : PublicKey := key 11 Byte.xd0.
Definition walletKey : PublicKey := key 13 Byte.xe0.
Definition programKey : PublicKey := key 14 Byte.xf0.
Definition otherWalletKey : PublicKey := key 15 Byte.xe1.

Definition sbv2 : Program := mkProgram programKey walletKey.

(** The same program reached through another provider. *)
Definition sbv2' : Program := mkProgram programKey otherWalletKey.

Definition crank_account : CrankAccount.t := mkAccountWrapper sbv2 crankKey None.

(** A stand-in for the hash behind [findProgramAddressSync]: the derived
    address is 0xff, 30 zero bytes and the byte sum of the seeds and of the
    program id; the bump is 255. *)
Definition byte_sum (b : Buffer) : N :=
  fold_right (fun x s => ((byte_val x + s) mod 256)%N) 0%N b.

Definition byte_of_N (n : N) : Byte.byte :=
  match Byte.of_N n with Some b => b | None => Byte.x00 end.

Definition derive (seeds : list Buffer) (programId : Buffer)
  : Completion (PublicKey * Z) :=
  Return (mkPublicKey 0
            (Byte.xff :: repeat Byte.x00 30
               ++ [byte_of_N (byte_sum (List.concat seeds ++ programId))]),
          255).

(** A stand-in for [Math.pow] on non-negative integer exponents. *)
Fixpoint pow_iter (fuel : nat) (x y : number) : number :=
  match fuel with
  | O => 1%float
  | S fuel' =>
      if PrimFloat.leb y 0%float then 1%float
      else PrimFloat.mul x (pow_iter fuel' x (PrimFloat.sub y 1%float))
  end.

(** The library functions used to evaluate the code on concrete inputs.
    [Buffer_js_lt] is set to the byte order the selector's second sort was
    written for. *)
Definition lib : Lib := mkLib derive lex_ltb (pow_iter 400).

Definition not_found {A} : Completion A := Throw (Error "Account does not exist").

(** A world holding one crank at [crankKey] and the given lease store. *)
Definition world (now_ms : Z) (crank : CrankAccountData)
           (leases : Buffer -> Completion LeaseAccountData) : World :=
  mkWorld now_ms
          (fun a => if Buffer_eqb a (toBuffer crankKey) then Return crank else not_found)
          leases
          (fun _ => not_found)
          (fun _ => Return "signature"%string).

(** The lease address [derive] gives a target under [sbv2]. *)
Definition lease_key (crank : CrankAccountData) (t : PublicKey) : PublicKey :=
  match derive (lease_seeds crank t) (toBuffer programKey) with
  | Return (k, _) => k
  | Throw _ => t
  end.

(** A lease store in which every lease record exists; a lease's escrow
    address is the lease address with its first byte set to 0xee. *)
Definition escrow_of (lease : Buffer) : PublicKey :=
  mkPublicKey 0 (Byte.xee :: List.tl lease).

Definition all_leases : Buffer -> Completion LeaseAccountData :=
  fun lease => Return (mkLeaseAccountData (escrow_of lease)).

(** The same store without the record at [missing], where it throws [e]. *)
Definition leases_except (missing : Buffer) (e : JsError)
  : Buffer -> Completion LeaseAccountData :=
  fun lease => if Buffer_eqb lease missing then Throw e else all_leases lease.

Definition no_leases (e : JsError) : Buffer -> Completion LeaseAccountData :=
  fun _ => Throw e.

(** The structure of the spec's scenario: A due at 100, B at 90, C at 200. *)
Definition rowA : CrankRow := mkCrankRow keyA 100.
Definition rowB : CrankRow := mkCrankRow keyB 90.
Definition rowC : CrankRow := mkCrankRow keyC 200.

Definition scenario : CrankAccountData :=
  mkCrankAccountData [rowA; rowB; rowC] 3 queueKey.

(** The six orders in which the scenario's three rows can be stored. *)
Definition scenario_orders : list CrankAccountData :=
  map (fun rows => mkCrankAccountData rows 3 queueKey)
      [ [rowA; rowB; rowC]; [rowA; rowC; rowB]; [rowB; rowA; rowC];
        [rowB; rowC; rowA]; [rowC; rowA; rowB]; [rowC; rowB; rowA] ].

(** The same scenario with due times of equal width. *)
Definition scenario_wide : CrankAccountData :=
  mkCrankAccountData
    [mkCrankRow keyA 1600000100; mkCrankRow keyB 1600000090;
     mkCrankRow keyC 1600000200] 3 queueKey.

(** Two due entries stored with the larger address first. *)
Definition two_due : CrankAccountData :=
  mkCrankAccountData
    [mkCrankRow keyB 1600000000; mkCrankRow keyA 1600000050] 2 queueKey.

(** One entry due in the year 2286, eleven digits wide. *)
Definition far_future : CrankAccountData :=
  mkCrankAccountData [mkCrankRow keyA 10000000000] 1 queueKey.

(** One entry long overdue, nine digits wide. *)
Definition long_overdue : CrankAccountData :=
  mkCrankAccountData [mkCrankRow keyA 999999999] 1 queueKey.

Definition aggregator_account : AggregatorAccount.t := mkAccountWrapper sbv2 keyA None.

Definition round (n : option Z) (m s : Z) : AggregatorAccountData :=
  mkAggregatorAccountData (Some (mkAggregatorRound n (mkDecimalData m s))).

End Sample.

(** Concrete inputs for the methods outside the crank path. *)
Module Sample2.

Definition oracleKey : PublicKey := Sample.key 20 Byte.x20.
Definition oracleKey2 : PublicKey := Sample.key 21 Byte.x21.
Definition oracleKey3 : PublicKey := Sample.key 22 Byte.x22.
Definition stateKey : PublicKey := Sample.key 23 Byte.x23.
Definition vaultKey : PublicKey := Sample.key 24 Byte.x24.
Definition mintKey : PublicKey := Sample.key 25 Byte.x25.
Definition recipientKey : PublicKey := Sample.key 26 Byte.x26.

Definition oracle_keypair : Keypair := mkKeypair oracleKey [].
Definition other_keypair : Keypair := mkKeypair oracleKey2 [].

Definition oracle_account : OracleAccount.t :=
  mkAccountWrapper Sample.sbv2 oracleKey (Some oracle_keypair).

Definition state_account : ProgramStateAccount.t :=
  mkAccountWrapper Sample.sbv2 stateKey None.

Definition queue_account : OracleQueueAccount.t :=
  mkAccountWrapper Sample.sbv2 Sample.queueKey None.

Definition permission_account : PermissionAccount.t :=
  mkAccountWrapper Sample.sbv2 recipientKey None.

(** An IDL whose error table lists the code 301 twice. *)
Definition idl : Idl :=
  mkIdl (Some [ mkIdlErrorCode 300 "ArrayOperationError"
                  (Some "Illegal operation on a Switchboard array."%string);
                mkIdlErrorCode 301 "QueueOperationError" None;
                mkIdlErrorCode 301 "Duplicate" (Some "second entry"%string) ]).

(** A ledger over [w] holding one oracle on [Sample.queueKey], the given
    queue record there, and a state record at [stateKey]. *)
Definition ledger (w : World) (q : OracleQueueAccountData) : Ledger :=
  mkLedger w
    (fun a => if Buffer_eqb a (toBuffer stateKey)
              then Return (mkSbState mintKey vaultKey) else Sample.not_found)
    (fun a => if Buffer_eqb a (toBuffer oracleKey)
              then Return (mkOracleAccountData Sample.queueKey) else Sample.not_found)
    (fun a => if Buffer_eqb a (toBuffer Sample.queueKey)
              then Return q else Sample.not_found)
    (fun _ => Return "vaultTransfer"%string)
    (fun _ => Return "aggregatorOpenRound"%string)
    (fun _ => Return "oracleHeartbeat"%string).

Definition w0 : World := Sample.world 1600000150000 Sample.two_due Sample.all_leases.

Definition three_oracles : OracleQueueAccountData :=
  mkOracleQueueAccountData [oracleKey2; oracleKey3; oracleKey; oracleKey2] 3.

End Sample2.

(* ================================================================== *)
(** * 6. Facts about the run-time model                                *)
(* ================================================================== *)

Section SortFacts.
Context {A : Type} (cmp : A -> A -> Z).

Lemma insert_at_perm (i : nat) (p : A) (l : list A) :
  Permutation (insert_at i p l) (p :: l).
Proof.
  unfold insert_at. symmetry.
  rewrite <- (firstn_skipn i l) at 1. apply Permutation_middle.
Qed.

Lemma BinaryInsertionSort_perm (rest sorted : list A) :
  Permutation (BinaryInsertionSort cmp sorted rest) (sorted ++ rest).
Proof.
  unfold BinaryInsertionSort. revert sorted.
  induction rest as [|p rest IH]; intros sorted; simpl.
  - now rewrite app_nil_r.
  - rewrite IH. unfold insert_pivot. rewrite insert_at_perm.
    simpl. apply Permutation_middle.
Qed.

(** Whatever the comparator, sorting permutes the array. *)
Lemma Array_sort_perm (l : list A) : Permutation (Array_sort cmp l) l.
Proof.
  unfold Array_sort. destruct (CountAndMakeRun cmp l) as [n d].
  rewrite BinaryInsertionSort_perm.
  transitivity (firstn n l ++ skipn n l); [|now rewrite firstn_skipn].
  apply Permutation_app_tail.
  destruct d; [symmetry; apply Permutation_rev | reflexivity].
Qed.

Lemma Array_sort_length (l : list A) : List.length (Array_sort cmp l) = List.length l.
Proof. apply Permutation_length, Array_sort_perm. Qed.

(** ** A comparator that is never negative leaves the array as it is. *)
Section NeverNegative.
Hypothesis nonneg : forall a b, 0 <= cmp a b.

Lemma run_continue_all (prev : A) (rest : list A) :
  run_continue cmp false prev rest = List.length rest.
Proof.
  revert prev. induction rest as [|x rest IH]; intros prev; simpl; [reflexivity|].
  destruct (Z.ltb_spec (cmp x prev) 0) as [H|_].
  - specialize (nonneg x prev). lia.
  - now rewrite IH.
Qed.

Lemma CountAndMakeRun_all (l : list A) :
  CountAndMakeRun cmp l = (List.length l, false).
Proof.
  destruct l as [|x [|y rest]]; try reflexivity.
  unfold CountAndMakeRun.
  destruct (Z.ltb_spec (cmp y x) 0) as [H|_].
  - specialize (nonneg y x). lia.
  - now rewrite run_continue_all.
Qed.

Lemma Array_sort_never_negative (l : list A) : Array_sort cmp l = l.
Proof.
  unfold Array_sort. rewrite CountAndMakeRun_all.
  now rewrite firstn_all, skipn_all.
Qed.
End NeverNegative.

(** ** A consistent comparator yields a sorted array. *)
Section Consistent.
Hypothesis ok : consistent cmp.

Let le := not_after cmp.

Lemma not_before_le (a b : A) : 0 <= cmp a b -> le b a.
Proof.
  intros H. unfold le, not_after.
  destruct (Z.le_gt_cases (cmp b a) 0) as [|G]; [assumption|].
  apply (consistent_flip _ ok) in G. lia.
Qed.

Lemma lt_le_trans (a b c : A) : cmp a b < 0 -> le b c -> cmp a c < 0.
Proof.
  intros Hab Hbc.
  destruct (Z.lt_ge_cases (cmp a c) 0) as [|G]; [assumption|].
  apply not_before_le in G.
  pose proof (consistent_trans _ ok _ _ _ Hbc G) as Hba.
  apply (consistent_flip _ ok) in Hab. lia.
Qed.

Lemma le_le_not_before (p x y : A) : 0 <= cmp p x -> le y x -> 0 <= cmp p y.
Proof.
  intros Hpx Hyx.
  destruct (Z.lt_ge_cases (cmp p y) 0) as [L|]; [|assumption].
  pose proof (lt_le_trans _ _ _ L Hyx). lia.
Qed.

Lemma le_trans (a b c : A) : le a b -> le b c -> le a c.
Proof. apply (consistent_trans _ ok). Qed.

Lemma StronglySorted_app_inv (l1 l2 : list A) (x : A) :
  StronglySorted le (l1 ++ x :: l2) ->
  Forall (fun y => le y x) l1 /\ Forall (le x) l2.
Proof.
  induction l1 as [|a l1 IH]; simpl; intros H; inversion H; subst.
  - split; [constructor | assumption].
  - destruct (IH H2) as [H1 H1']. split; [|assumption].
    constructor; [|assumption].
    rewrite Forall_app in H3. destruct H3 as [_ H3]. now inversion H3.
Qed.

Lemma StronglySorted_insert_at (k : nat) (p : A) (l : list A) :
  StronglySorted le l ->
  Forall (fun x => le x p) (firstn k l) ->
  Forall (le p) (skipn k l) ->
  StronglySorted le (insert_at k p l).
Proof.
  unfold insert_at. intros Hs. revert k.
  induction Hs as [|a l Hs IH Ha]; intros k H1 H2.
  - rewrite firstn_nil, skipn_nil. repeat constructor.
  - destruct k as [|k]; simpl in *.
    + constructor; [constructor; assumption | assumption].
    + inversion H1; subst. constructor.
      * apply IH; assumption.
      * apply Forall_app. split.
        -- rewrite <- (firstn_skipn k l) in Ha. apply Forall_app in Ha. tauto.
        -- constructor; [assumption|].
           rewrite <- (firstn_skipn k l) in Ha. apply Forall_app in Ha. tauto.
Qed.

(** The binary search returns a stable insertion point. *)
Lemma binary_search_spec (pivot : A) (sorted : list A) :
  StronglySorted le sorted ->
  forall fuel left right,
    (left <= right <= List.length sorted)%nat ->
    (right - left <= fuel)%nat ->
    Forall (fun x => 0 <= cmp pivot x) (firstn left sorted) ->
    Forall (fun x => cmp pivot x < 0) (skipn right sorted) ->
    let k := binary_search cmp fuel pivot sorted left right in
    Forall (fun x => 0 <= cmp pivot x) (firstn k sorted) /\
    Forall (fun x => cmp pivot x < 0) (skipn k sorted).
Proof.
  intros Hs fuel.
  induction fuel as [|fuel IH]; intros left right Hlr Hfuel Hl Hr;
    cbn [binary_search]; cbv zeta.
  - assert (left = right) by lia. subst. tauto.
  - destruct (Nat.ltb_spec left right) as [Hlt|Hge].
    2:{ assert (left = right) by lia. subst. tauto. }
    set (mid := (left + (right - left) / 2)%nat).
    assert (Hmid : (left <= mid < right)%nat /\ (mid - left <= fuel)%nat).
    { assert ((right - left) / 2 < right - left)%nat
        by (apply Nat.div_lt; lia).
      unfold mid. lia. }
    clearbody mid.
    destruct (nth_error sorted mid) as [x|] eqn:Hx.
    2:{ apply nth_error_None in Hx. lia. }
    destruct (nth_error_split _ _ Hx) as (l1 & l2 & Heq & Hlen).
    pose proof Hs as Hs'. rewrite Heq in Hs'.
    apply StronglySorted_app_inv in Hs'. destruct Hs' as [Hbefore Hafter].
    destruct (Z.ltb_spec (cmp pivot x) 0) as [Hneg|Hpos].
    + apply IH; [lia | lia | assumption |].
      rewrite Heq, <- Hlen, skipn_app, skipn_all, Nat.sub_diag. simpl.
      constructor; [assumption|].
      eapply Forall_impl; [|exact Hafter].
      intros y Hy. eapply lt_le_trans; eassumption.
    + apply IH; [lia | lia | | assumption].
      rewrite Heq, <- Hlen.
      replace (S (List.length l1)) with (List.length (l1 ++ [x]))
        by (rewrite length_app; simpl; lia).
      change (x :: l2) with ([x] ++ l2). rewrite app_assoc.
      rewrite firstn_app, firstn_all, Nat.sub_diag. simpl. rewrite app_nil_r.
      apply Forall_app. split.
      * eapply Forall_impl; [|exact Hbefore].
        intros y Hy. eapply le_le_not_before; eassumption.
      * constructor; [assumption | constructor].
Qed.

Lemma insert_pivot_sorted (sorted : list A) (p : A) :
  StronglySorted le sorted -> StronglySorted le (insert_pivot cmp sorted p).
Proof.
  intros Hs. unfold insert_pivot.
  destruct (binary_search_spec p sorted Hs (List.length sorted) O (List.length sorted))
    as [H1 H2]; try lia.
  - simpl. constructor.
  - rewrite skipn_all. constructor.
  - apply StronglySorted_insert_at; [assumption | |].
    + eapply Forall_impl; [|exact H1]. intros x. apply not_before_le.
    + eapply Forall_impl; [|exact H2]. intros x Hx. unfold le, not_after.
      cbv beta in Hx. lia.
Qed.

Lemma BinaryInsertionSort_sorted (rest sorted : list A) :
  StronglySorted le sorted ->
  StronglySorted le (BinaryInsertionSort cmp sorted rest).
Proof.
  unfold BinaryInsertionSort. revert sorted.
  induction rest as [|p rest IH]; intros sorted Hs; simpl; [assumption|].
  apply IH, insert_pivot_sorted, Hs.
Qed.
End Consistent.
End SortFacts.

Lemma StronglySorted_weaken {A} (R R' : A -> A -> Prop) (l : list A) :
  (forall a b, R a b -> R' a b) -> StronglySorted R l -> StronglySorted R' l.
Proof.
  intros HR. induction 1 as [|a l Hs IH Ha]; constructor; [assumption|].
  eapply Forall_impl; [|exact Ha]. intros b. apply HR.
Qed.

Lemma StronglySorted_snoc {A} (R : A -> A -> Prop) (l : list A) (x : A) :
  StronglySorted R l -> Forall (fun y => R y x) l -> StronglySorted R (l ++ [x]).
Proof.
  induction 1 as [|a l Hs IH Ha]; simpl; intros Hx.
  - repeat constructor.
  - inversion Hx; subst. constructor; [apply IH; assumption|].
    apply Forall_app. split; [assumption | repeat constructor; assumption].
Qed.

Lemma StronglySorted_rev {A} (R : A -> A -> Prop) (l : list A) :
  StronglySorted R l -> StronglySorted (fun a b => R b a) (rev l).
Proof.
  induction 1 as [|a l Hs IH Ha]; simpl; [constructor|].
  apply StronglySorted_snoc; [assumption|].
  apply Forall_rev. assumption.
Qed.

Section RunFacts.
Context {A : Type} (cmp : A -> A -> Z) (ok : consistent cmp).

Let le := not_after cmp.
Let after (a b : A) : Prop := cmp b a < 0.

Lemma run_ascending (prev : A) (rest : list A) :
  StronglySorted le (prev :: firstn (run_continue cmp false prev rest) rest).
Proof.
  revert prev. induction rest as [|x rest IH]; intros prev; simpl.
  - repeat constructor.
  - destruct (Z.ltb_spec (cmp x prev) 0) as [H|H]; simpl.
    + repeat constructor.
    + specialize (IH x). constructor; [assumption|].
      assert (Hpx : le prev x) by (apply (not_before_le cmp ok); assumption).
      constructor; [assumption|].
      inversion IH; subst.
      eapply Forall_impl; [|eassumption].
      intros y Hy. eapply (le_trans cmp ok); eassumption.
Qed.

Lemma run_descending (prev : A) (rest : list A) :
  StronglySorted after (prev :: firstn (run_continue cmp true prev rest) rest).
Proof.
  revert prev. induction rest as [|x rest IH]; intros prev; simpl.
  - repeat constructor.
  - destruct (Z.ltb_spec (cmp x prev) 0) as [H|H]; simpl.
    + specialize (IH x). constructor; [assumption|].
      constructor; [assumption|].
      inversion IH; subst.
      eapply Forall_impl; [|eassumption].
      intros y Hy. unfold after in *.
      eapply (lt_le_trans cmp ok); [eassumption|].
      unfold not_after. lia.
    + repeat constructor.
Qed.

Lemma CountAndMakeRun_cons (x0 x1 : A) (rest : list A) :
  let d := cmp x1 x0 <? 0 in
  CountAndMakeRun cmp (x0 :: x1 :: rest)
  = (S (run_continue cmp d x0 (x1 :: rest)), d).
Proof.
  simpl. destruct (cmp x1 x0 <? 0); reflexivity.
Qed.

(** The run V8 starts from is sorted once a descending run is reversed. *)
Lemma initial_run_sorted (l : list A) :
  let '(n, d) := CountAndMakeRun cmp l in
  StronglySorted le (if d then rev (firstn n l) else firstn n l).
Proof.
  destruct l as [|x0 [|x1 rest]].
  - simpl. constructor.
  - simpl. repeat constructor.
  - rewrite CountAndMakeRun_cons. cbv zeta.
    rewrite firstn_cons.
    destruct (cmp x1 x0 <? 0).
    + eapply StronglySorted_weaken; [|apply StronglySorted_rev, run_descending].
      intros a b H. unfold after in H. unfold le, not_after. lia.
    + apply run_ascending.
Qed.

(** With a consistent comparator the array comes out sorted. *)
Lemma Array_sort_sorted (l : list A) : StronglySorted le (Array_sort cmp l).
Proof.
  unfold Array_sort. pose proof (initial_run_sorted l) as H.
  destruct (CountAndMakeRun cmp l) as [n d].
  apply (BinaryInsertionSort_sorted cmp ok). exact H.
Qed.
End RunFacts.

(** The model on small arrays: a three-way comparator sorts, a boolean
    comparator leaves the array as it is. *)
Example Array_sort_three_way : Array_sort Z.sub [3; 1; 2; 5; 4; 4; 0] = [0; 1; 2; 3; 4; 4; 5].
Proof. reflexivity. Qed.

Example Array_sort_boolean :
  Array_sort (fun a b => ToNumber_bool (a <? b)) [3; 1; 2; 5; 4; 4; 0]
  = [3; 1; 2; 5; 4; 4; 0].
Proof. reflexivity. Qed.

(** ** [Buffer.compare] is a consistent order: unsigned lexicographic *)

Lemma Buffer_compare_lex_leb (a b : Buffer) :
  Buffer_compare a b <= 0 <-> lex_leb a b = true.
Proof.
  revert b. induction a as [|x a IH]; intros [|y b]; simpl; try (split; (lia || congruence)).
  destruct (N.compare_spec (byte_val x) (byte_val y)) as [E|L|G].
  - rewrite E, N.ltb_irrefl, N.eqb_refl. simpl. apply IH.
  - apply N.ltb_lt in L. rewrite L. simpl. split; [reflexivity | lia].
  - assert ((byte_val x <? byte_val y)%N = false) as -> by (apply N.ltb_ge; lia).
    assert ((byte_val x =? byte_val y)%N = false) as -> by (apply N.eqb_neq; lia).
    simpl. split; [lia | congruence].
Qed.

Lemma Buffer_compare_flip (a b : Buffer) :
  Buffer_compare a b < 0 <-> 0 < Buffer_compare b a.
Proof.
  revert b. induction a as [|x a IH]; intros [|y b]; simpl; try lia.
  rewrite (N.compare_antisym (byte_val x) (byte_val y)).
  destruct (N.compare (byte_val x) (byte_val y)); simpl; try lia. apply IH.
Qed.

Lemma Buffer_compare_trans (a b c : Buffer) :
  Buffer_compare a b <= 0 -> Buffer_compare b c <= 0 -> Buffer_compare a c <= 0.
Proof.
  revert b c. induction a as [|x a IH]; intros [|y b] [|z c]; simpl; try lia.
  destruct (N.compare_spec (byte_val x) (byte_val y)) as [E1|L1|G1];
    destruct (N.compare_spec (byte_val y) (byte_val z)) as [E2|L2|G2];
    destruct (N.compare_spec (byte_val x) (byte_val z)) as [E3|L3|G3];
    try lia.
  apply IH.
Qed.

Lemma Buffer_compare_refl (a : Buffer) : Buffer_compare a a = 0.
Proof.
  induction a as [|x a IH]; simpl; [reflexivity|].
  now rewrite N.compare_refl.
Qed.

(** [Buffer.compare] returns 0 exactly on equal byte strings. *)
Lemma Buffer_compare_eq (a b : Buffer) : Buffer_compare a b = 0 -> a = b.
Proof.
  revert b. induction a as [|x a IH]; intros [|y b]; simpl; try lia; [reflexivity|].
  destruct (N.compare_spec (byte_val x) (byte_val y)) as [E|L|G]; try lia.
  intros H. f_equal; [|apply IH; assumption].
  unfold byte_val in E.
  pose proof (Byte.of_to_N x) as Hx. pose proof (Byte.of_to_N y) as Hy.
  rewrite E in Hx. congruence.
Qed.

Lemma compare_keys_consistent : consistent compare_keys.
Proof.
  split; unfold compare_keys.
  - intros a b. apply Buffer_compare_flip.
  - intros a b c. apply Buffer_compare_trans.
Qed.

(* ================================================================== *)
(** * 7. The ready-set selector, [CrankAccount.peakReady]              *)
(* ================================================================== *)

Lemma ToNumber_bool_nonneg (b : bool) : 0 <= ToNumber_bool b.
Proof. destruct b; simpl; lia. Qed.

(** Both comparators of [peakReady] return a boolean, which [sort] reads as
    0 or 1 and never as a negative number: neither sort moves an element. *)
Lemma peakReady_items_stored_order (L : Lib) (crank : CrankAccountData) (now_ms n : Z) :
  CrankAccount.peakReady_items L crank now_ms n = stored_order_prefix crank now_ms n.
Proof.
  unfold CrankAccount.peakReady_items, stored_order_prefix.
  rewrite !Array_sort_never_negative by (intros; apply ToNumber_bool_nonneg).
  reflexivity.
Qed.

Lemma peakReady_run (L : Lib) (this : CrankAccount.t) (n : Z) (w : World) :
  CrankAccount.peakReady L this n w
  = match crankAccountData_fetch w (toBuffer (publicKey this)) with
    | Return crank => Return (stored_order_prefix crank (Date_now w) n)
    | Throw e => Throw e
    end.
Proof.
  unfold CrankAccount.peakReady, CrankAccount.loadData, bind, call, ask, ret.
  destruct (crankAccountData_fetch w (toBuffer (publicKey this))); [|reflexivity].
  now rewrite peakReady_items_stored_order.
Qed.

(** ** Where the string comparison of the filter agrees with the numbers *)

Lemma of_lu_revapp_horner (d a : Decimal.uint) :
  Unsigned.of_lu (Decimal.revapp d a) = horner (Unsigned.of_lu a) d.
Proof.
  revert a. induction d; intros a; cbn [Decimal.revapp horner]; try reflexivity;
    rewrite IHd; cbn [Unsigned.of_lu]; f_equal; lia.
Qed.

Lemma of_uint_horner (d : Decimal.uint) : Pos.of_uint d = horner 0 d.
Proof.
  rewrite Unsigned.of_uint_alt. unfold Decimal.rev. apply of_lu_revapp_horner.
Qed.

(** On digit sequences of one length, the order of the values is the order
    of the strings. *)
Lemma horner_compare (d1 : Decimal.uint) :
  forall (d2 : Decimal.uint) (a1 a2 : N),
    String.length (NilEmpty.string_of_uint d1)
    = String.length (NilEmpty.string_of_uint d2) ->
    N.compare (horner a1 d1) (horner a2 d2)
    = match N.compare a1 a2 with
      | Eq => String.compare (NilEmpty.string_of_uint d1) (NilEmpty.string_of_uint d2)
      | c => c
      end.
Proof.
  induction d1; intros d2 a1 a2 Hlen; destruct d2; simpl in Hlen; try discriminate;
    try (simpl; destruct (N.compare a1 a2); reflexivity);
    injection Hlen as Hlen; cbn [horner NilEmpty.string_of_uint String.compare];
    rewrite (IHd1 _ _ _ Hlen);
    destruct (N.compare_spec a1 a2) as [->|Hlt|Hgt];
    try (rewrite N.compare_refl; reflexivity);
    match goal with
    | |- context [N.compare ?x ?y] =>
        destruct (N.compare_spec x y); try lia; try reflexivity
    end.
Qed.

Lemma BN_toString_digits (z : Z) :
  0 <= z ->
  BN_toString z = NilEmpty.string_of_uint (digits_of z)
  /\ horner 0 (digits_of z) = Z.to_N z.
Proof.
  intros Hz. destruct z as [|p|p]; [split; reflexivity | | lia].
  unfold BN_toString, digits_of. simpl. split.
  - pose proof (Unsigned.to_uint_nonnil p) as Hnil.
    destruct (Pos.to_uint p); [contradiction | reflexivity ..].
  - rewrite <- of_uint_horner. apply Unsigned.of_to.
Qed.

(** For non-negative integers of the same printed width, JavaScript's [<=]
    on the two BN objects is the numeric order. *)
Lemma BN_js_le_same_width (a b : BN) :
  0 <= a -> 0 <= b -> same_width a b -> BN_js_le a b = (a <=? b).
Proof.
  intros Ha Hb Hw. unfold same_width in Hw. unfold BN_js_le, String.leb.
  destruct (BN_toString_digits a Ha) as [Sa Va].
  destruct (BN_toString_digits b Hb) as [Sb Vb].
  rewrite Sa, Sb in *.
  pose proof (horner_compare (digits_of a) (digits_of b) 0 0 Hw) as H.
  rewrite Va, Vb in H. simpl in H. rewrite <- H.
  rewrite Z2N.inj_compare by assumption.
  unfold Z.leb. reflexivity.
Qed.

(** On a structure whose due times are non-negative and as wide as the clock
    reading (ten digits from 2001 to 2286), the filter keeps the due rows. *)
Lemma filter_same_width (now_ms : Z) (rows : list CrankRow) :
  0 <= now_ms / 1000 ->
  Forall (fun row => 0 <= nextTimestamp row
                     /\ same_width (nextTimestamp row) (now_ms / 1000)) rows ->
  filter (passes_filter now_ms) rows = filter (due now_ms) rows.
Proof.
  intros Hnow Hrows. apply filter_ext_in. intros row Hin.
  rewrite Forall_forall in Hrows. destruct (Hrows row Hin) as [Hts Hw].
  apply BN_js_le_same_width; assumption.
Qed.

Lemma Array_slice0_length {A} (n : Z) (l : list A) :
  0 <= n -> Z.of_nat (List.length (Array_slice0 n l)) <= n.
Proof.
  intros Hn. unfold Array_slice0.
  destruct (Z.ltb_spec n 0); [lia|].
  rewrite length_firstn. lia.
Qed.

Lemma Array_slice0_incl {A} (n : Z) (l : list A) : incl (Array_slice0 n l) l.
Proof.
  unfold Array_slice0. intros x Hx.
  match type of Hx with In _ (firstn ?k _) => rewrite <- (firstn_skipn k l) end.
  apply in_or_app. now left.
Qed.

(** The parts of the selector's contract that hold for every structure: it
    returns at most [n] addresses, each of a stored row that passed the
    filter, and it returns (an empty sequence for an empty structure) whenever
    the structure loads. *)
Lemma peakReady_general (L : Lib) (this : CrankAccount.t) (n : Z) (w : World)
      (crank : CrankAccountData) :
  crankAccountData_fetch w (toBuffer (publicKey this)) = Return crank ->
  exists keys,
    CrankAccount.peakReady L this n w = Return keys /\
    (0 <= n -> Z.of_nat (List.length keys) <= n) /\
    (forall k, In k keys ->
       exists row, In row (pqData crank) /\ pubkey row = k /\
                   passes_filter (Date_now w) row = true) /\
    (pqData crank = [] -> keys = []).
Proof.
  intros Hload. rewrite peakReady_run, Hload.
  eexists. split; [reflexivity|]. unfold stored_order_prefix. repeat split.
  - intros Hn. rewrite length_map. now apply Array_slice0_length.
  - intros k Hk. apply in_map_iff in Hk. destruct Hk as (row & Hrow & Hin).
    apply Array_slice0_incl in Hin. apply filter_In in Hin. destruct Hin as [Hin Hf].
    apply Array_slice0_incl in Hin. eauto.
  - intros ->. unfold Array_slice0. simpl.
    rewrite firstn_nil. simpl. now rewrite firstn_nil.
Qed.

Lemma Array_slice0_all {A} (n : Z) (l : list A) :
  Z.of_nat (List.length l) <= n -> Array_slice0 n l = l.
Proof.
  intros H. unfold Array_slice0.
  destruct (Z.ltb_spec n 0); [lia|].
  rewrite Z.min_r by lia. rewrite Nat2Z.id. apply firstn_all.
Qed.

(** On such a structure the selector returns only due entries, no more of
    them than are due, and all of them when the limit allows; the order is
    the stored one. *)
Lemma peakReady_same_width (L : Lib) (this : CrankAccount.t) (n : Z) (w : World)
      (crank : CrankAccountData) :
  crankAccountData_fetch w (toBuffer (publicKey this)) = Return crank ->
  0 <= Date_now w / 1000 ->
  Forall (fun row => 0 <= nextTimestamp row
                     /\ same_width (nextTimestamp row) (Date_now w / 1000))
         (pqData crank) ->
  let ready := filter (due (Date_now w)) (Array_slice0 (pqSize crank) (pqData crank)) in
  exists keys,
    CrankAccount.peakReady L this n w = Return keys
    /\ keys = map pubkey (Array_slice0 n ready)
    /\ (forall k, In k keys ->
          exists row, In row (pqData crank) /\ pubkey row = k /\
                      nextTimestamp row <= Date_now w / 1000)
    /\ (List.length keys <= List.length ready)%nat
    /\ (Z.of_nat (List.length ready) <= n -> keys = map pubkey ready).
Proof.
  intros Hload Hnow Hrows ready.
  rewrite peakReady_run, Hload. unfold stored_order_prefix.
  rewrite (filter_same_width (Date_now w)); [fold ready|assumption|].
  2:{ rewrite Forall_forall in *. intros row Hin. apply Hrows.
      now apply (Array_slice0_incl (pqSize crank)). }
  eexists. split; [reflexivity|]. split; [reflexivity|]. split; [|split].
  - intros k Hk. apply in_map_iff in Hk. destruct Hk as (row & Hrow & Hin).
    apply Array_slice0_incl in Hin. unfold ready in Hin.
    apply filter_In in Hin. destruct Hin as [Hin Hdue].
    apply Array_slice0_incl in Hin. exists row. repeat split; try assumption.
    unfold due in Hdue. now apply Z.leb_le.
  - rewrite length_map. unfold Array_slice0 at 1. rewrite length_firstn. lia.
  - intros Hn. now rewrite Array_slice0_all.
Qed.

(** C1 (code at the failing input): two due entries stored with the larger
    address first come back in stored order [B; A], which is not ascending in
    the unsigned byte order of the addresses; this holds whatever the run
    time's [<] on Buffers answers. *)
Theorem C1_peakReady_not_address_sorted :
  forall L : Lib,
    CrankAccount.peakReady L Sample.crank_account 10
      (Sample.world 1600000150000 Sample.two_due Sample.all_leases)
    = Return [Sample.keyB; Sample.keyA]
    /\ lex_leb (toBuffer Sample.keyB) (toBuffer Sample.keyA) = false
    /\ ~ StronglySorted (not_after compare_keys) [Sample.keyB; Sample.keyA].
Proof.
  intros L. rewrite peakReady_run. split; [reflexivity|]. split; [reflexivity|].
  intros H. inversion H as [|? ? _ Hall]; subst.
  inversion Hall as [|? ? Hle _]; subst.
  unfold not_after in Hle. vm_compute in Hle. apply Hle. reflexivity.
Qed.

(** C2 (as stated, refuted): with the same arguments and the same stored
    structure, two calls made at different clock readings return different
    sequences. *)
Lemma C2_counterexample :
  ~ (forall (L : Lib) (this : CrankAccount.t) (n : Z) (w1 w2 : World),
        crankAccountData_fetch w1 = crankAccountData_fetch w2 ->
        CrankAccount.peakReady L this n w1 = CrankAccount.peakReady L this n w2).
Proof.
  intros H.
  specialize (H Sample.lib Sample.crank_account 10
                (Sample.world 1599999999000 Sample.two_due Sample.all_leases)
                (Sample.world 1600000150000 Sample.two_due Sample.all_leases)
                eq_refl).
  rewrite !peakReady_run in H. vm_compute in H. discriminate H.
Qed.

(** C2 (amended): the selector reads the clock itself; its result is a
    function of the loaded structure, the clock reading in whole seconds and
    the limit. *)
Theorem C2_peakReady_function_of_structure_clock_limit :
  forall (L : Lib) (this : CrankAccount.t) (n : Z) (w1 w2 : World),
    crankAccountData_fetch w1 (toBuffer (publicKey this))
    = crankAccountData_fetch w2 (toBuffer (publicKey this)) ->
    Date_now w1 / 1000 = Date_now w2 / 1000 ->
    CrankAccount.peakReady L this n w1 = CrankAccount.peakReady L this n w2.
Proof.
  intros L this n w1 w2 Hstore Hclock.
  unfold CrankAccount.peakReady, CrankAccount.loadData, bind, call, ask, ret.
  rewrite Hstore.
  destruct (crankAccountData_fetch w2 (toBuffer (publicKey this))); [|reflexivity].
  unfold CrankAccount.peakReady_items. now rewrite Hclock.
Qed.

Lemma C2_witness :
  CrankAccount.peakReady Sample.lib Sample.crank_account 10
    (Sample.world 1600000150000 Sample.two_due Sample.all_leases)
  = CrankAccount.peakReady Sample.lib Sample.crank_account 10
      (Sample.world 1600000150999 Sample.two_due Sample.all_leases).
Proof.
  apply C2_peakReady_function_of_structure_clock_limit; reflexivity.
Defined.

(** C4 (code at the failing inputs): the filter compares decimal strings, so
    an entry due in 2286 (eleven digits) is returned in 2021 although
    10000000000 > 1635000000, and an entry long overdue (nine digits) is left
    out although 999999999 <= 1635000000. *)
Theorem C4_peakReady_filter_compares_strings :
  forall L : Lib,
    (CrankAccount.peakReady L Sample.crank_account 10
       (Sample.world 1635000000000 Sample.far_future Sample.all_leases)
     = Return [Sample.keyA]
     /\ 1635000000000 / 1000 < 10000000000)
    /\
    (CrankAccount.peakReady L Sample.crank_account 10
       (Sample.world 1635000000000 Sample.long_overdue Sample.all_leases)
     = Return []
     /\ 999999999 <= 1635000000000 / 1000).
Proof.
  intros L. rewrite !peakReady_run.
  split; (split; [reflexivity | vm_compute; congruence || reflexivity]).
Qed.

(** C5 (code at the failing input): on the spec's scenario with limit 1 the
    selector returns [A], not [B], in whichever order the three rows are
    stored: B's due time "90" is not below "150" as a string.  With due times
    of equal width both A and B pass the filter, and the urgency sort leaves
    them in stored order, so A is returned when it is stored before B. *)
Theorem C5_scenario_limit_one_returns_A :
  forall L : Lib,
    Forall
      (fun crank =>
         CrankAccount.peakReady L Sample.crank_account 1
           (Sample.world 150000 crank Sample.all_leases)
         = Return [Sample.keyA])
      Sample.scenario_orders
    /\ CrankAccount.peakReady L Sample.crank_account 1
         (Sample.world 1600000150000 Sample.scenario_wide Sample.all_leases)
       = Return [Sample.keyA]
    /\ Sample.keyA <> Sample.keyB.
Proof.
  intros L. split; [|split].
  - unfold Sample.scenario_orders. simpl map.
    repeat (apply Forall_cons; [rewrite peakReady_run; reflexivity|]).
    apply Forall_nil.
  - rewrite peakReady_run. reflexivity.
  - discriminate.
Qed.

(* ================================================================== *)
(** * 8. The account list of [CrankAccount.pop]                        *)
(* ================================================================== *)

Section PopFacts.
Context (L : Lib) (this : CrankAccount.t) (crank : CrankAccountData) (w : World).

Lemma pop_loop_body_funded (acc : list PublicKey) (t l e : PublicKey) :
  funded L this crank w t l e ->
  CrankAccount.pop_loop_body L this crank acc t w = Return (acc ++ [l; e]).
Proof.
  intros [[bump Hd] Hf].
  unfold CrankAccount.pop_loop_body, LeaseAccount.fromSeed, LeaseAccount.loadData,
    bind, lift, call, ret. simpl.
  unfold lease_seeds in Hd. rewrite Hd. simpl. now rewrite Hf.
Qed.

Lemma pop_loop_body_fetch_fails (acc : list PublicKey) (t l : PublicKey) (bump : Z)
      (e : JsError) :
  findProgramAddressSync L (lease_seeds crank t)
    (toBuffer (programId (program this))) = Return (l, bump) ->
  leaseAccountData_fetch w (toBuffer l) = Throw e ->
  CrankAccount.pop_loop_body L this crank acc t w = Throw e.
Proof.
  intros Hd Hf.
  unfold CrankAccount.pop_loop_body, LeaseAccount.fromSeed, LeaseAccount.loadData,
    bind, lift, call, ret. simpl.
  unfold lease_seeds in Hd. rewrite Hd. simpl. now rewrite Hf.
Qed.

Lemma for_of_funded (lease esc : PublicKey -> PublicKey) (selected acc : list PublicKey) :
  (forall t, In t selected -> funded L this crank w t (lease t) (esc t)) ->
  for_of selected (CrankAccount.pop_loop_body L this crank) acc w
  = Return (acc ++ flat_map (fun t => [lease t; esc t]) selected).
Proof.
  revert acc. induction selected as [|t selected IH]; intros acc H; simpl.
  - now rewrite app_nil_r.
  - unfold bind. rewrite (pop_loop_body_funded acc t (lease t) (esc t)).
    + rewrite IH by (intros; apply H; now right).
      now rewrite <- app_assoc.
    + apply H. now left.
Qed.

(** The loop stops at the first target whose lease record cannot be
    fetched, with the error the store threw. *)
Lemma for_of_first_failure (pre post acc : list PublicKey) (t l : PublicKey)
      (bump : Z) (e : JsError) :
  (forall x, In x pre -> exists lx ex, funded L this crank w x lx ex) ->
  findProgramAddressSync L (lease_seeds crank t)
    (toBuffer (programId (program this))) = Return (l, bump) ->
  leaseAccountData_fetch w (toBuffer l) = Throw e ->
  for_of (pre ++ t :: post) (CrankAccount.pop_loop_body L this crank) acc w = Throw e.
Proof.
  intros Hpre Hd Hf. revert acc.
  induction pre as [|x pre IH]; intros acc; simpl; unfold bind.
  - now rewrite (pop_loop_body_fetch_fails acc t l bump e).
  - destruct (Hpre x (or_introl eq_refl)) as (lx & ex & Hx).
    rewrite (pop_loop_body_funded acc x lx ex Hx).
    apply IH. intros y Hy. apply Hpre. now right.
Qed.
End PopFacts.

Lemma flat_map_pairs_perm {A} (f g : A -> A) (l : list A) :
  Permutation (flat_map (fun t => [f t; g t]) l) (map f l ++ map g l).
Proof.
  induction l as [|t l IH]; simpl; [constructor|].
  constructor. rewrite IH. apply Permutation_middle.
Qed.

(** [pop] hands the sorted list to the ledger client, every entry writable
    and none a signer. *)
Lemma pop_call_run (L : Lib) (this : CrankAccount.t) (params : CrankPopParams)
      (w : World) (crank : CrankAccountData) (selected accounts : list PublicKey)
      (stateKey : PublicKey) (bump : Z) :
  crankAccountData_fetch w (toBuffer (publicKey this)) = Return crank ->
  CrankAccount.peakReady L this 10 w = Return selected ->
  CrankAccount.pop_remainingAccounts L this crank selected w = Return accounts ->
  findProgramAddressSync L [Buffer_from "SB_STATE_V1"]
    (toBuffer (programId (program this))) = Return (stateKey, bump) ->
  CrankAccount.pop_call L this params w
  = Return (mkCrankPopCall bump (publicKey this) (queuePubkey crank) stateKey
              (payoutWallet params) (map (mkAccountMeta false true) accounts)).
Proof.
  intros Hload Hready Hacc Hstate.
  unfold CrankAccount.pop_call, bind, CrankAccount.loadData, call.
  rewrite Hload, Hready, Hacc.
  unfold ProgramStateAccount.fromSeed, bind, lift, ret.
  rewrite Hstate. reflexivity.
Qed.

(** C3: when every selected target's lease record is fetched, the account list
    [pop] assembles holds the n targets, their n lease addresses and their n
    escrow addresses, 3 * n entries in all, in ascending unsigned byte order
    of the addresses; that list is what [pop] passes as [remainingAccounts]. *)
Theorem C3_pop_remainingAccounts_sorted_triple :
  forall (L : Lib) (this : CrankAccount.t) (crank : CrankAccountData) (w : World)
         (lease esc : PublicKey -> PublicKey) (selected : list PublicKey),
    (forall t, In t selected -> funded L this crank w t (lease t) (esc t)) ->
    exists accounts,
      CrankAccount.pop_remainingAccounts L this crank selected w = Return accounts
      /\ List.length accounts = (3 * List.length selected)%nat
      /\ Permutation accounts (selected ++ map lease selected ++ map esc selected)
      /\ StronglySorted (fun a b => lex_leb (toBuffer a) (toBuffer b) = true) accounts
      /\ (forall (params : CrankPopParams) (stateKey : PublicKey) (bump : Z),
             crankAccountData_fetch w (toBuffer (publicKey this)) = Return crank ->
             CrankAccount.peakReady L this 10 w = Return selected ->
             findProgramAddressSync L [Buffer_from "SB_STATE_V1"]
               (toBuffer (programId (program this))) = Return (stateKey, bump) ->
             exists c,
               CrankAccount.pop_call L this params w = Return c
               /\ map meta_pubkey (remainingAccounts c) = accounts).
Proof.
  intros L this crank w lease esc selected H.
  destruct (CrankAccount.pop_remainingAccounts L this crank selected w)
    as [accounts|e] eqn:Hrun.
  2:{ unfold CrankAccount.pop_remainingAccounts, bind, ret in Hrun.
      rewrite (for_of_funded L this crank w lease esc selected selected H) in Hrun.
      discriminate Hrun. }
  exists accounts. split; [reflexivity|].
  pose proof Hrun as Hsorted.
  unfold CrankAccount.pop_remainingAccounts, bind, ret in Hsorted.
  rewrite (for_of_funded L this crank w lease esc selected selected H) in Hsorted.
  injection Hsorted as Hsorted.
  assert (P : Permutation accounts (selected ++ map lease selected ++ map esc selected)).
  { rewrite <- Hsorted, Array_sort_perm.
    apply Permutation_app_head, flat_map_pairs_perm. }
  split; [|split; [exact P|split]].
  - rewrite (Permutation_length P), !length_app, !length_map. lia.
  - rewrite <- Hsorted.
    eapply StronglySorted_weaken;
      [|exact (Array_sort_sorted compare_keys compare_keys_consistent _)].
    intros a b Hab. apply Buffer_compare_lex_leb. exact Hab.
  - intros params stateKey bump Hload Hready Hstate.
    eexists. split.
    + apply (pop_call_run L this params w crank selected accounts stateKey bump);
        assumption.
    + simpl. rewrite map_map. simpl. apply map_id.
Qed.

Lemma C3_witness :
  exists c,
    CrankAccount.pop_call Sample.lib Sample.crank_account
      (mkCrankPopParams Sample.walletKey)
      (Sample.world 1600000150000 Sample.two_due Sample.all_leases) = Return c
    /\ List.length (map meta_pubkey (remainingAccounts c)) = 6%nat.
Proof.
  destruct (C3_pop_remainingAccounts_sorted_triple
              Sample.lib Sample.crank_account Sample.two_due
              (Sample.world 1600000150000 Sample.two_due Sample.all_leases)
              (Sample.lease_key Sample.two_due)
              (fun t => Sample.escrow_of (toBuffer (Sample.lease_key Sample.two_due t)))
              [Sample.keyB; Sample.keyA])
    as (accounts & Hrun & Hlen & _ & _ & Hcall).
  - intros t Ht. split; [eexists; reflexivity | reflexivity].
  - edestruct (Hcall (mkCrankPopParams Sample.walletKey)) as (c & Hc & Hkeys);
      [reflexivity | reflexivity | reflexivity |].
    exists c. split; [exact Hc|]. rewrite Hkeys. exact Hlen.
Defined.

(** C7 (as stated, refuted): no error value determined by the target alone is
    what [pop] throws when a lease record cannot be fetched: the same target
    fails with whichever error the store threw. *)
Lemma C7_counterexample :
  ~ (exists MissingFundingRecord : PublicKey -> JsError,
       forall (L : Lib) (this : CrankAccount.t) (params : CrankPopParams) (w : World)
              (crank : CrankAccountData) (pre post : list PublicKey)
              (t leaseKey : PublicKey) (bump : Z) (e : JsError),
         crankAccountData_fetch w (toBuffer (publicKey this)) = Return crank ->
         CrankAccount.peakReady L this 10 w = Return (pre ++ t :: post) ->
         (forall x, In x pre -> exists lx ex, funded L this crank w x lx ex) ->
         findProgramAddressSync L (lease_seeds crank t)
           (toBuffer (programId (program this))) = Return (leaseKey, bump) ->
         leaseAccountData_fetch w (toBuffer leaseKey) = Throw e ->
         CrankAccount.pop L this params w = Throw (MissingFundingRecord t)).
Proof.
  intros [mk H].
  pose (wa := Sample.world 1600000150000 Sample.two_due
                (Sample.no_leases (Error "Account does not exist"))).
  pose (wb := Sample.world 1600000150000 Sample.two_due
                (Sample.no_leases (Error "Connection timed out"))).
  assert (Ha : CrankAccount.pop Sample.lib Sample.crank_account
                 (mkCrankPopParams Sample.walletKey) wa = Throw (mk Sample.keyB)).
  { eapply (H _ _ _ wa Sample.two_due [] [Sample.keyA] Sample.keyB).
    - reflexivity.
    - rewrite peakReady_run. reflexivity.
    - intros x [].
    - reflexivity.
    - reflexivity. }
  assert (Hb : CrankAccount.pop Sample.lib Sample.crank_account
                 (mkCrankPopParams Sample.walletKey) wb = Throw (mk Sample.keyB)).
  { eapply (H _ _ _ wb Sample.two_due [] [Sample.keyA] Sample.keyB).
    - reflexivity.
    - rewrite peakReady_run. reflexivity.
    - intros x [].
    - reflexivity.
    - reflexivity. }
  vm_compute in Ha, Hb. congruence.
Qed.

(** C7 (amended): when the store throws on the lease record of a selected
    target (the records of the targets before it having been fetched), [pop]
    throws that same error: nothing is handed to the ledger client, the
    target is not skipped and no account list is returned. *)
Theorem C7_pop_aborts_with_store_error :
  forall (L : Lib) (this : CrankAccount.t) (params : CrankPopParams) (w : World)
         (crank : CrankAccountData) (pre post : list PublicKey)
         (t leaseKey : PublicKey) (bump : Z) (e : JsError),
    crankAccountData_fetch w (toBuffer (publicKey this)) = Return crank ->
    CrankAccount.peakReady L this 10 w = Return (pre ++ t :: post) ->
    (forall x, In x pre -> exists lx ex, funded L this crank w x lx ex) ->
    findProgramAddressSync L (lease_seeds crank t)
      (toBuffer (programId (program this))) = Return (leaseKey, bump) ->
    leaseAccountData_fetch w (toBuffer leaseKey) = Throw e ->
    CrankAccount.pop_remainingAccounts L this crank (pre ++ t :: post) w = Throw e
    /\ CrankAccount.pop_call L this params w = Throw e
    /\ CrankAccount.pop L this params w = Throw e.
Proof.
  intros L this params w crank pre post t leaseKey bump e Hload Hready Hpre Hd Hf.
  assert (Hacc : CrankAccount.pop_remainingAccounts L this crank (pre ++ t :: post) w
                 = Throw e).
  { unfold CrankAccount.pop_remainingAccounts, bind.
    now rewrite (for_of_first_failure L this crank w pre post _ t leaseKey bump e). }
  assert (Hcall : CrankAccount.pop_call L this params w = Throw e).
  { unfold CrankAccount.pop_call, bind, CrankAccount.loadData, call.
    rewrite Hload. unfold CrankAccount.loadData, call in Hready.
    rewrite Hready. now rewrite Hacc. }
  split; [exact Hacc|]. split; [exact Hcall|].
  unfold CrankAccount.pop, bind. now rewrite Hcall.
Qed.

Lemma C7_witness :
  CrankAccount.pop Sample.lib Sample.crank_account (mkCrankPopParams Sample.walletKey)
    (Sample.world 1600000150000 Sample.two_due
       (Sample.leases_except (toBuffer (Sample.lease_key Sample.two_due Sample.keyA))
          (Error "Account does not exist")))
  = Throw (Error "Account does not exist").
Proof.
  eapply (C7_pop_aborts_with_store_error Sample.lib Sample.crank_account
            (mkCrankPopParams Sample.walletKey) _ Sample.two_due
            [Sample.keyB] [] Sample.keyA).
  - reflexivity.
  - reflexivity.
  - intros x [<-|[]].
    exists (Sample.lease_key Sample.two_due Sample.keyB).
    exists (Sample.escrow_of (toBuffer (Sample.lease_key Sample.two_due Sample.keyB))).
    split; [eexists; reflexivity | reflexivity].
  - reflexivity.
  - reflexivity.
Defined.

(* ================================================================== *)
(** * 9. Program-derived addresses                                     *)
(* ================================================================== *)

Lemma ProgramStateAccount_fromSeed_run (L : Lib) (p : Program) (w : World) :
  address_and_bump (ProgramStateAccount.fromSeed L p w)
  = findProgramAddressSync L [Buffer_from "SB_STATE_V1"] (toBuffer (programId p)).
Proof.
  unfold ProgramStateAccount.fromSeed, bind, lift, ret.
  destruct (findProgramAddressSync L _ _) as [[k b]|e]; reflexivity.
Qed.

Lemma LeaseAccount_fromSeed_run (L : Lib) (p : Program) (leaser target : PublicKey)
      (w : World) :
  address_and_bump (LeaseAccount.fromSeed L p leaser target w)
  = findProgramAddressSync L
      [Buffer_from "lease_account"; toBytes leaser; toBytes target]
      (toBuffer (programId p)).
Proof.
  unfold LeaseAccount.fromSeed, bind, lift, ret.
  destruct (findProgramAddressSync L _ _) as [[k b]|e]; reflexivity.
Qed.

(** C6: the (address, bump) pair [fromSeed] yields is the library's derivation
    from the fixed seed "SB_STATE_V1" (state) or from "lease_account" and the
    bytes of the two addresses (lease) under the program's identity; it does
    not depend on the world (clock, store) nor on anything else of the
    program object, so equal inputs give the equal pair on every call. *)
Theorem C6_fromSeed_depends_on_seeds_and_program_only :
  forall L : Lib,
    (forall (p1 p2 : Program) (w1 w2 : World),
        toBuffer (programId p1) = toBuffer (programId p2) ->
        address_and_bump (ProgramStateAccount.fromSeed L p1 w1)
        = address_and_bump (ProgramStateAccount.fromSeed L p2 w2))
    /\
    (forall (p1 p2 : Program) (leaser1 leaser2 target1 target2 : PublicKey)
            (w1 w2 : World),
        toBuffer (programId p1) = toBuffer (programId p2) ->
        toBytes leaser1 = toBytes leaser2 ->
        toBytes target1 = toBytes target2 ->
        address_and_bump (LeaseAccount.fromSeed L p1 leaser1 target1 w1)
        = address_and_bump (LeaseAccount.fromSeed L p2 leaser2 target2 w2))
    /\
    (forall (p : Program) (w : World),
        address_and_bump (ProgramStateAccount.fromSeed L p w)
        = findProgramAddressSync L [Buffer_from "SB_STATE_V1"] (toBuffer (programId p)))
    /\
    (forall (p : Program) (leaser target : PublicKey) (w : World),
        address_and_bump (LeaseAccount.fromSeed L p leaser target w)
        = findProgramAddressSync L
            [Buffer_from "lease_account"; toBytes leaser; toBytes target]
            (toBuffer (programId p))).
Proof.
  intros L. repeat split.
  - intros p1 p2 w1 w2 Hp. rewrite !ProgramStateAccount_fromSeed_run. now rewrite Hp.
  - intros p1 p2 l1 l2 t1 t2 w1 w2 Hp Hl Ht.
    rewrite !LeaseAccount_fromSeed_run. now rewrite Hp, Hl, Ht.
  - intros. apply ProgramStateAccount_fromSeed_run.
  - intros. apply LeaseAccount_fromSeed_run.
Qed.

Lemma C6_witness :
  address_and_bump
    (ProgramStateAccount.fromSeed Sample.lib Sample.sbv2
       (Sample.world 0 Sample.two_due Sample.all_leases))
  = address_and_bump
      (ProgramStateAccount.fromSeed Sample.lib Sample.sbv2'
         (Sample.world 1600000150000 Sample.scenario
            (Sample.no_leases (Error "Account does not exist"))))
  /\
  address_and_bump
    (LeaseAccount.fromSeed Sample.lib Sample.sbv2 Sample.keyA Sample.queueKey
       (Sample.world 0 Sample.two_due Sample.all_leases))
  = address_and_bump
      (LeaseAccount.fromSeed Sample.lib Sample.sbv2'
         (mkPublicKey 77 (toBuffer Sample.keyA)) (mkPublicKey 78 (toBuffer Sample.queueKey))
         (Sample.world 1600000150000 Sample.scenario Sample.all_leases)).
Proof.
  split.
  - apply (proj1 (C6_fromSeed_depends_on_seeds_and_program_only Sample.lib)).
    reflexivity.
  - apply (proj1 (proj2 (C6_fromSeed_depends_on_seeds_and_program_only Sample.lib)));
      reflexivity.
Defined.

(** The state seed is the eleven ASCII bytes of "SB_STATE_V1". *)
Example state_seed_bytes :
  map byte_val (Buffer_from "SB_STATE_V1")
  = [83; 66; 95; 83; 84; 65; 84; 69; 95; 86; 49]%N.
Proof. reflexivity. Qed.

(* ================================================================== *)
(** * 10. [SwitchboardDecimal]                                         *)
(* ================================================================== *)

Lemma SwitchboardDecimal_eq_iff (a b : SwitchboardDecimal.t) :
  SwitchboardDecimal.eq a b = true <->
  SwitchboardDecimal.mantissa a = SwitchboardDecimal.mantissa b /\
  SwitchboardDecimal.scale a = SwitchboardDecimal.scale b.
Proof.
  unfold SwitchboardDecimal.eq, BN_eq.
  rewrite andb_true_iff, !Z.eqb_eq. reflexivity.
Qed.

(** C8: [eq] holds exactly when the mantissas are equal and the scales are
    equal; it is reflexive, symmetric and transitive, and it tells 10 x 10^-2
    from 1 x 10^-1 although [toBig] gives both the value 1/10. *)
Theorem C8_eq_is_structural_equivalence :
  (forall a b : SwitchboardDecimal.t,
      SwitchboardDecimal.eq a b = true <->
      SwitchboardDecimal.mantissa a = SwitchboardDecimal.mantissa b /\
      SwitchboardDecimal.scale a = SwitchboardDecimal.scale b)
  /\ (forall a, SwitchboardDecimal.eq a a = true)
  /\ (forall a b, SwitchboardDecimal.eq a b = SwitchboardDecimal.eq b a)
  /\ (forall a b c,
         SwitchboardDecimal.eq a b = true -> SwitchboardDecimal.eq b c = true ->
         SwitchboardDecimal.eq a c = true)
  /\ (SwitchboardDecimal.eq (SwitchboardDecimal.mk 10 2) (SwitchboardDecimal.mk 1 1) = false
      /\ exists q1 q2,
           SwitchboardDecimal.toBig (SwitchboardDecimal.mk 10 2) = Return q1 /\
           SwitchboardDecimal.toBig (SwitchboardDecimal.mk 1 1) = Return q2 /\
           Qeq q1 q2).
Proof.
  split; [exact SwitchboardDecimal_eq_iff|].
  split; [intros a; apply SwitchboardDecimal_eq_iff; split; reflexivity|].
  split.
  { intros a b. unfold SwitchboardDecimal.eq, BN_eq.
    now rewrite (Z.eqb_sym (SwitchboardDecimal.mantissa a)),
                (Z.eqb_sym (SwitchboardDecimal.scale a)). }
  split.
  { intros a b c Hab Hbc.
    apply SwitchboardDecimal_eq_iff in Hab. apply SwitchboardDecimal_eq_iff in Hbc.
    apply SwitchboardDecimal_eq_iff.
    destruct Hab as [-> ->]. exact Hbc. }
  split; [reflexivity|].
  eexists. eexists. split; [reflexivity|]. split; [reflexivity|]. reflexivity.
Qed.

Lemma C8_witness :
  SwitchboardDecimal.eq (SwitchboardDecimal.mk 1234 3) (SwitchboardDecimal.mk 1234 3) = true
  /\ SwitchboardDecimal.mantissa (SwitchboardDecimal.mk 1234 3) = 1234.
Proof.
  split.
  - apply (proj1 (proj2 (proj2 (proj2 C8_eq_is_structural_equivalence)))
             (SwitchboardDecimal.mk 1234 3) (SwitchboardDecimal.mk 1234 3)
             (SwitchboardDecimal.mk 1234 3)); reflexivity.
  - apply (proj1 (proj1 C8_eq_is_structural_equivalence
                    (SwitchboardDecimal.mk 1234 3) (SwitchboardDecimal.mk 1234 3))).
    reflexivity.
Defined.

(* ================================================================== *)
(** * 11. The account wrapper constructors                             *)
(* ================================================================== *)

Lemma account_constructor_throws_iff (name : string) (params : AccountParams) :
  is_return (account_constructor name params) = false
  <-> neither_supplied params \/ not_same_object params.
Proof.
  unfold account_constructor, neither_supplied, not_same_object.
  destruct (params_keypair params) as [kp|], (params_publicKey params) as [pk|]; simpl.
  - destruct (strict_equal pk (keypair_publicKey kp)) eqn:E; simpl.
    + split; [discriminate|].
      intros [[H _]|(kp' & pk' & Hk & Hp & Hne)]; [discriminate|].
      injection Hk as <-. injection Hp as <-. congruence.
    + split; [|reflexivity]. intros _. right. exists kp, pk. auto.
  - split; [discriminate|].
    intros [[H _]|(kp' & pk' & _ & Hp & _)]; discriminate.
  - split; [discriminate|].
    intros [[_ H]|(kp' & pk' & Hk & _ & _)]; discriminate.
  - split; [|reflexivity]. intros _. left. auto.
Qed.

Lemma account_constructor_publicKey (name : string) (params : AccountParams)
      (account : AccountWrapper) :
  account_constructor name params = Return account ->
  supplied_key params = Some (publicKey account)
  /\ program account = params_program params
  /\ keypair account = params_keypair params.
Proof.
  unfold account_constructor, supplied_key.
  destruct (params_keypair params) as [kp|], (params_publicKey params) as [pk|]; simpl.
  - destruct (strict_equal pk (keypair_publicKey kp)); simpl; [|discriminate].
    intros H. injection H as <-. auto.
  - intros H. injection H as <-. auto.
  - intros H. injection H as <-. auto.
  - discriminate.
Qed.

(** Each wrapper constructor is the shared constructor body under the
    class's name. *)
Lemma Forall_wrapper_constructors
      (P : (AccountParams -> Completion AccountWrapper) -> Prop) :
  (forall name, P (account_constructor name)) -> Forall P wrapper_constructors.
Proof.
  intros H. unfold wrapper_constructors.
  repeat (apply Forall_cons; [apply H|]). apply Forall_nil.
Qed.

(** C9: each of the eight wrapper constructors throws exactly when neither a
    publicKey nor a keypair is supplied, or when both are and the publicKey is
    not the very object [keypair.publicKey] (a distinct object with the same
    bytes is rejected); when it returns, the wrapper's [publicKey] is the
    supplied publicKey, or the keypair's when none was supplied. *)
Theorem C9_wrapper_constructors_validate_keys :
  Forall
    (fun new : AccountParams -> Completion AccountWrapper =>
       forall params : AccountParams,
         (is_return (new params) = false
          <-> neither_supplied params \/ not_same_object params)
         /\ (forall account, new params = Return account ->
                             supplied_key params = Some (publicKey account)))
    wrapper_constructors
  /\
  Forall
    (fun new : AccountParams -> Completion AccountWrapper =>
       forall (p : Program) (i j : nat) (bytes secret : Buffer),
         i <> j ->
         is_return (new (mkAccountParams p (Some (mkPublicKey i bytes))
                           (Some (mkKeypair (mkPublicKey j bytes) secret)))) = false)
    wrapper_constructors.
Proof.
  split; apply Forall_wrapper_constructors; intros name.
  - intros params. split.
    + apply account_constructor_throws_iff.
    + intros account H. apply (account_constructor_publicKey _ _ _ H).
  - intros p i j bytes secret Hij.
    apply account_constructor_throws_iff. right.
    eexists. eexists. split; [reflexivity|]. split; [reflexivity|].
    unfold strict_equal. simpl. apply Nat.eqb_neq. exact Hij.
Qed.

Lemma C9_witness :
  is_return
    (CrankAccount.new
       (mkAccountParams Sample.sbv2 (Some (mkPublicKey 1 (Sample.addr Byte.x0a)))
          (Some (mkKeypair (mkPublicKey 2 (Sample.addr Byte.x0a)) [])))) = false
  /\ supplied_key (mkAccountParams Sample.sbv2 None (Some (mkKeypair Sample.keyA [])))
     = Some Sample.keyA.
Proof.
  pose proof C9_wrapper_constructors_validate_keys as [Hall Hdistinct].
  unfold wrapper_constructors in Hall, Hdistinct.
  split.
  - do 6 (apply Forall_inv_tail in Hdistinct). apply Forall_inv in Hdistinct.
    apply Hdistinct. discriminate.
  - do 6 (apply Forall_inv_tail in Hall). apply Forall_inv in Hall.
    destruct (Hall (mkAccountParams Sample.sbv2 None (Some (mkKeypair Sample.keyA []))))
      as [_ Hkey].
    rewrite (Hkey (mkAccountWrapper Sample.sbv2 Sample.keyA
                     (Some (mkKeypair Sample.keyA []))) eq_refl).
    reflexivity.
Defined.

(* ================================================================== *)
(** * 12. [AggregatorAccount.getLatestValue]                           *)
(* ================================================================== *)

Lemma BN_toNumber_fits (b : BN) :
  Z.abs b < 2 ^ 53 -> BN_toNumber b = Return (number_of_Z b).
Proof.
  intros H. unfold BN_toNumber.
  destruct (Z.ltb_spec (Z.abs b) (2 ^ 53)); [reflexivity | lia].
Qed.

Lemma BN_toNumber_overflows (b : BN) :
  2 ^ 53 <= Z.abs b ->
  BN_toNumber b = Throw (Error "Number can only safely store up to 53 bits").
Proof.
  intros H. unfold BN_toNumber.
  destruct (Z.ltb_spec (Z.abs b) (2 ^ 53)); [lia | reflexivity].
Qed.

(** C10 (as stated, refuted): with one successful round whose mantissa is
    2^53, [getLatestValue] neither throws "holds no value" nor returns. *)
Lemma C10_counterexample :
  ~ (forall (L : Lib) (this : AggregatorAccount.t) (aggregator : AggregatorAccountData)
            (w : World),
        AggregatorAccount.numSuccess_or_0 aggregator <> 0 ->
        exists x, AggregatorAccount.getLatestValue L this (Some aggregator) w = Return x).
Proof.
  intros H.
  destruct (H Sample.lib Sample.aggregator_account (Sample.round (Some 1) (2 ^ 53) 0)
              (Sample.world 0 Sample.two_due Sample.all_leases)) as [x Hx].
  - discriminate.
  - vm_compute in Hx. discriminate Hx.
Qed.

(** C10 (amended): on a loaded aggregator, [getLatestValue] throws
    "Aggregator currently holds no value." exactly when numSuccess is 0 or
    absent; otherwise, when mantissa and scale fit in 53 bits, it returns the
    binary64 quotient of the mantissa by [Math.pow(10, scale)], and when one
    of them does not fit it throws the assertion error of [BN.toNumber].  On
    mantissa 1 and scale 1 the returned number is not the decimal 1/10 that
    [toBig] computes. *)
Theorem C10_getLatestValue_cases :
  forall (L : Lib) (this : AggregatorAccount.t) (aggregator : AggregatorAccountData)
         (w : World),
    (AggregatorAccount.getLatestValue L this (Some aggregator) w
     = Throw (Error "Aggregator currently holds no value.")
     <-> AggregatorAccount.numSuccess_or_0 aggregator = 0)
    /\
    (AggregatorAccount.numSuccess_or_0 aggregator <> 0 ->
     exists round,
       latestConfirmedRound aggregator = Some round /\
       let m := data_mantissa (result round) in
       let s := data_scale (result round) in
       (Z.abs m < 2 ^ 53 -> Z.abs s < 2 ^ 53 ->
        AggregatorAccount.getLatestValue L this (Some aggregator) w
        = Return (PrimFloat.div (number_of_Z m)
                    (Math_pow L (number_of_Z 10) (number_of_Z s))))
       /\
       (2 ^ 53 <= Z.abs m \/ 2 ^ 53 <= Z.abs s ->
        AggregatorAccount.getLatestValue L this (Some aggregator) w
        = Throw (Error "Number can only safely store up to 53 bits")))
    /\
    (Math_pow L (number_of_Z 10) (number_of_Z 1) = number_of_Z 10 ->
     exists x q q',
       AggregatorAccount.getLatestValue L this
         (Some (mkAggregatorAccountData
                  (Some (mkAggregatorRound (Some 1) (mkDecimalData 1 1))))) w
       = Return x
       /\ number_exact x = Some q
       /\ SwitchboardDecimal.toBig (SwitchboardDecimal.mk 1 1) = Return q'
       /\ ~ Qeq q q').
Proof.
  intros L this aggregator w.
  unfold AggregatorAccount.getLatestValue, bind, ret, throw, lift.
  split; [|split].
  - unfold AggregatorAccount.numSuccess_or_0.
    destruct (latestConfirmedRound aggregator) as [round|]; [|simpl; tauto].
    destruct (numSuccess round) as [n|]; [|simpl; tauto].
    destruct (Z.eqb_spec n 0) as [->|Hn]; [tauto|].
    split; [|intros; contradiction].
    destruct (BN_toNumber (data_mantissa (result round))) as [m|e] eqn:Em.
    + destruct (BN_toNumber (data_scale (result round))) as [s|e] eqn:Es;
        [discriminate|].
      unfold BN_toNumber in Es.
      destruct (Z.abs (data_scale (result round)) <? 2 ^ 53); [discriminate|].
      injection Es as <-. discriminate.
    + unfold BN_toNumber in Em.
      destruct (Z.abs (data_mantissa (result round)) <? 2 ^ 53); [discriminate|].
      injection Em as <-. discriminate.
  - intros Hns.
    destruct (Z.eqb_spec (AggregatorAccount.numSuccess_or_0 aggregator) 0) as [E|_];
      [contradiction|].
    unfold AggregatorAccount.numSuccess_or_0 in Hns.
    destruct (latestConfirmedRound aggregator) as [round|]; [|contradiction].
    exists round. split; [reflexivity|]. cbv zeta. split.
    + intros Hm Hs. now rewrite (BN_toNumber_fits _ Hm), (BN_toNumber_fits _ Hs).
    + intros [Hm|Hs].
      * now rewrite (BN_toNumber_overflows _ Hm).
      * rewrite (BN_toNumber_overflows _ Hs).
        destruct (BN_toNumber (data_mantissa (result round))) as [m|e] eqn:Em;
          [reflexivity|].
        unfold BN_toNumber in Em.
        destruct (Z.abs (data_mantissa (result round)) <? 2 ^ 53); [discriminate|].
        injection Em as <-. reflexivity.
  - intros Hpow.
    change (AggregatorAccount.numSuccess_or_0
              (mkAggregatorAccountData
                 (Some (mkAggregatorRound (Some 1) (mkDecimalData 1 1)))) =? 0)
      with false.
    cbv iota. cbn [latestConfirmedRound result data_mantissa data_scale].
    rewrite (BN_toNumber_fits 1) by reflexivity.
    rewrite Hpow.
    eexists. eexists. eexists.
    split; [reflexivity|]. split; [vm_compute; reflexivity|].
    split; [reflexivity|].
    vm_compute. discriminate.
Qed.

Lemma C10_witness :
  AggregatorAccount.getLatestValue Sample.lib Sample.aggregator_account
    (Some (Sample.round (Some 3) 12345 2))
    (Sample.world 0 Sample.two_due Sample.all_leases)
  = Return (PrimFloat.div (number_of_Z 12345)
              (Math_pow Sample.lib (number_of_Z 10) (number_of_Z 2))).
Proof.
  destruct (proj1 (proj2 (C10_getLatestValue_cases Sample.lib Sample.aggregator_account
                            (Sample.round (Some 3) 12345 2)
                            (Sample.world 0 Sample.two_due Sample.all_leases))))
    as (round & Hround & Hfits & _).
  - discriminate.
  - simpl in Hround. injection Hround as <-. apply Hfits; reflexivity.
Defined.

(* ================================================================== *)
(** * 13. [SwitchboardError.fromCode]                                  *)
(* ================================================================== *)

Lemma fromCode_loop_returns (program : Program) (code : Z) (es : list IdlErrorCode)
      (r : SwitchboardError.t) :
  SwitchboardError.fromCode_loop program code es = Return r <->
  exists before e after,
    es = before ++ e :: after /\
    Forall (fun x => err_code x <> code) before /\
    err_code e = code /\
    r = SwitchboardError.mk program (err_name e) code (err_msg e).
Proof.
  induction es as [|x es IH]; simpl.
  - split; [discriminate|].
    intros (before & e & after & H & _). destruct before; discriminate.
  - destruct (Z.eqb_spec code (err_code x)) as [E|N].
    + split.
      * intros H. injection H as <-. exists [], x, es. subst code. repeat split; auto.
      * intros (before & e & after & Hes & Hbefore & He & ->).
        destruct before as [|b before]; simpl in Hes; injection Hes as -> ->.
        -- now rewrite He.
        -- inversion Hbefore; subst. congruence.
    + rewrite IH. split.
      * intros (before & e & after & -> & Hbefore & He & ->).
        exists (x :: before), e, after. repeat split; auto.
      * intros (before & e & after & Hes & Hbefore & He & ->).
        destruct before as [|b before]; simpl in Hes; injection Hes as -> ->.
        -- congruence.
        -- inversion Hbefore; subst. exists before, e, after. repeat split; auto.
Qed.


(** X1: [fromCode] returns exactly when the IDL's error table has an entry
    with the code, and then it returns the first such entry (its name, the
    code and its message) under the given program; a later entry with the
    same code is never returned. *)
Theorem X1_fromCode_returns_first_entry_with_code :
  forall (program : Program) (idl : Idl) (code : Z) (r : SwitchboardError.t),
    SwitchboardError.fromCode program idl code = Return r <->
    exists before e after,
      errors idl = Some (before ++ e :: after) /\
      Forall (fun x => err_code x <> code) before /\
      err_code e = code /\
      r = SwitchboardError.mk program (err_name e) code (err_msg e).
Proof.
  intros program idl code r. unfold SwitchboardError.fromCode.
  rewrite fromCode_loop_returns.
  destruct (errors idl) as [es|].
  - split; intros (before & e & after & H & Hrest).
    + exists before, e, after. subst es. auto.
    + exists before, e, after. injection H as ->. auto.
  - split; intros (before & e & after & H & _).
    + destruct before; discriminate.
    + discriminate.
Qed.

Lemma X1_witness :
  SwitchboardError.fromCode Sample.sbv2 Sample2.idl 301
  = Return (SwitchboardError.mk Sample.sbv2 "QueueOperationError" 301 None).
Proof.
  apply (proj2 (X1_fromCode_returns_first_entry_with_code Sample.sbv2 Sample2.idl 301 _)).
  exists [mkIdlErrorCode 300 "ArrayOperationError"
            (Some "Illegal operation on a Switchboard array."%string)],
         (mkIdlErrorCode 301 "QueueOperationError" None),
         [mkIdlErrorCode 301 "Duplicate" (Some "second entry"%string)].
  split; [reflexivity|]. split; [|split; reflexivity].
  constructor; [simpl; lia | constructor].
Defined.



(* ================================================================== *)
(** * 14. [OracleAccount.heartbeat]                                    *)
(* ================================================================== *)

Lemma Array_get_last {A} (front rest : list A) (x : A) (i : Z) :
  i = Z.of_nat (List.length front) ->
  Array_get (front ++ x :: rest) i = Some x.
Proof.
  intros ->. unfold Array_get.
  destruct (Z.ltb_spec (Z.of_nat (List.length front)) 0); [lia|].
  rewrite Nat2Z.id, nth_error_app2, Nat.sub_diag by lia. reflexivity.
Qed.

Lemma Array_get_outside {A} (arr : list A) (i : Z) :
  i < 0 \/ Z.of_nat (List.length arr) <= i -> Array_get arr i = None.
Proof.
  intros H. unfold Array_get.
  destruct (Z.ltb_spec i 0); [reflexivity|].
  apply nth_error_None. lia.
Qed.

Lemma heartbeat_call_run (this : OracleAccount.t) (l : Ledger)
      (data : OracleAccountData) (q : OracleQueueAccountData) :
  oracleAccountData_fetch l (toBuffer (publicKey this)) = Return data ->
  oracleQueueAccountData_fetch l (toBuffer (oracle_queuePubkey data)) = Return q ->
  OracleAccount_heartbeat_call this l
  = Return (mkOracleHeartbeatCall (publicKey this)
              (if negb (size q =? 0) then Array_get (queue q) (size q - 1)
               else Some (publicKey this))
              (oracle_queuePubkey data) [keypair this]).
Proof.
  intros Hdata Hq.
  unfold OracleAccount_heartbeat_call, OracleAccount_loadData,
    OracleQueueAccount_loadData, bind_l, call_l, in_world, lift, ret_l.
  rewrite Hdata. simpl. rewrite Hq. reflexivity.
Qed.

(** X3: once the oracle record and its queue record load, [heartbeat] submits
    the oracle, the queue named in the oracle record and the wrapper's own
    keypair as signer (undefined when the wrapper holds none).  The
    garbage-collection candidate [gcOracle] is the oracle itself on an empty
    queue, the entry at index [size - 1] when the queue array holds that many
    entries, and undefined when [size] exceeds the array. *)
Theorem X3_heartbeat_gcOracle_is_last_queue_entry :
  forall (this : OracleAccount.t) (l : Ledger)
         (data : OracleAccountData) (q : OracleQueueAccountData),
    oracleAccountData_fetch l (toBuffer (publicKey this)) = Return data ->
    oracleQueueAccountData_fetch l (toBuffer (oracle_queuePubkey data)) = Return q ->
    exists c,
      OracleAccount_heartbeat_call this l = Return c
      /\ OracleAccount_heartbeat this l = rpc_oracleHeartbeat l c
      /\ hb_oracle c = publicKey this
      /\ hb_oracleQueue c = oracle_queuePubkey data
      /\ hb_signers c = [keypair this]
      /\ (size q = 0 -> hb_gcOracle c = Some (publicKey this))
      /\ (forall front x rest,
             queue q = front ++ x :: rest ->
             size q = Z.of_nat (List.length front) + 1 ->
             hb_gcOracle c = Some x)
      /\ (size q < 0 \/ Z.of_nat (List.length (queue q)) < size q ->
          hb_gcOracle c = None).
Proof.
  intros this l data q Hdata Hq.
  pose proof (heartbeat_call_run this l data q Hdata Hq) as Hcall.
  eexists. split; [exact Hcall|].
  split; [unfold OracleAccount_heartbeat, bind_l, call_l; now rewrite Hcall|].
  repeat split; simpl.
  - intros ->. reflexivity.
  - intros front x rest Hqueue Hsize.
    destruct (Z.eqb_spec (size q) 0); [lia|]. simpl.
    rewrite Hqueue. apply Array_get_last. lia.
  - intros Hout.
    destruct (Z.eqb_spec (size q) 0); [lia|]. simpl.
    apply Array_get_outside. lia.
Qed.

Lemma X3_witness :
  exists c,
    OracleAccount_heartbeat_call Sample2.oracle_account
      (Sample2.ledger Sample2.w0 Sample2.three_oracles) = Return c
    /\ hb_gcOracle c = Some Sample2.oracleKey.
Proof.
  destruct (X3_heartbeat_gcOracle_is_last_queue_entry
              Sample2.oracle_account
              (Sample2.ledger Sample2.w0 Sample2.three_oracles)
              (mkOracleAccountData Sample.queueKey) Sample2.three_oracles
              eq_refl eq_refl)
    as (c & Hc & _ & _ & _ & _ & _ & Hlast & _).
  exists c. split; [exact Hc|].
  apply (Hlast [Sample2.oracleKey2; Sample2.oracleKey3] Sample2.oracleKey
               [Sample2.oracleKey2]); reflexivity.
Defined.

(** X4: when the store throws on the oracle record, or on the queue record
    the oracle record names, [heartbeat] throws that error and hands nothing
    to the ledger client. *)
Theorem X4_heartbeat_aborts_on_missing_record :
  forall (this : OracleAccount.t) (l : Ledger) (e : JsError),
    (oracleAccountData_fetch l (toBuffer (publicKey this)) = Throw e ->
     OracleAccount_heartbeat_call this l = Throw e
     /\ OracleAccount_heartbeat this l = Throw e)
    /\
    (forall data,
        oracleAccountData_fetch l (toBuffer (publicKey this)) = Return data ->
        oracleQueueAccountData_fetch l (toBuffer (oracle_queuePubkey data)) = Throw e ->
        OracleAccount_heartbeat_call this l = Throw e
        /\ OracleAccount_heartbeat this l = Throw e).
Proof.
  intros this l e. split.
  - intros H.
    assert (Hc : OracleAccount_heartbeat_call this l = Throw e).
    { unfold OracleAccount_heartbeat_call, OracleAccount_loadData, bind_l, call_l.
      now rewrite H. }
    split; [exact Hc|]. unfold OracleAccount_heartbeat, bind_l. now rewrite Hc.
  - intros data Hdata Hq.
    assert (Hc : OracleAccount_heartbeat_call this l = Throw e).
    { unfold OracleAccount_heartbeat_call, OracleAccount_loadData,
        OracleQueueAccount_loadData, bind_l, call_l, in_world, lift.
      rewrite Hdata. simpl. now rewrite Hq. }
    split; [exact Hc|]. unfold OracleAccount_heartbeat, bind_l. now rewrite Hc.
Qed.

Lemma X4_witness :
  OracleAccount_heartbeat
    (mkAccountWrapper Sample.sbv2 Sample2.oracleKey2 None)
    (Sample2.ledger Sample2.w0 Sample2.three_oracles)
  = Throw (Error "Account does not exist").
Proof.
  apply (proj1 (X4_heartbeat_aborts_on_missing_record
                  (mkAccountWrapper Sample.sbv2 Sample2.oracleKey2 None)
                  (Sample2.ledger Sample2.w0 Sample2.three_oracles)
                  (Error "Account does not exist"))).
  reflexivity.
Defined.

(* ================================================================== *)
(** * 15. [AggregatorAccount.openRound]                                *)
(* ================================================================== *)

Lemma openRound_call_run (L : Lib) (this : AggregatorAccount.t)
      (params : AggregatorOpenRoundParams) (l : Ledger)
      (stateKey leaseKey : PublicKey) (stateBump leaseBump : Z)
      (lease : LeaseAccountData) :
  findProgramAddressSync L [Buffer_from "SB_STATE_V1"]
    (toBuffer (programId (program this))) = Return (stateKey, stateBump) ->
  findProgramAddressSync L
    [Buffer_from "lease_account"; toBytes (publicKey this);
     toBytes (publicKey (oracleQueueAccount params))]
    (toBuffer (programId (program this))) = Return (leaseKey, leaseBump) ->
  leaseAccountData_fetch (world l) (toBuffer leaseKey) = Return lease ->
  AggregatorAccount_openRound_call L this params l
  = Return (mkAggregatorOpenRoundCall stateBump leaseBump (publicKey this)
              (publicKey (oracleQueueAccount params)) leaseKey (escrow lease)
              (programId (program this)) stateKey (openRound_payoutWallet params)).
Proof.
  intros Hstate Hlease Hfetch.
  unfold AggregatorAccount_openRound_call, bind_l, in_world, ret_l,
    ProgramStateAccount.fromSeed, LeaseAccount.fromSeed, LeaseAccount.loadData,
    bind, lift, call, ret.
  rewrite Hstate. simpl. rewrite Hlease. simpl. now rewrite Hfetch.
Qed.

(** X5: [openRound] and [pop] agree on the funding accounts of a feed: for an
    aggregator on the queue the crank belongs to (under the same program),
    the lease and escrow accounts [openRound] submits are the two accounts the
    loop of [pop] appends for that aggregator's key. *)
Theorem X5_openRound_submits_the_lease_pop_resolves :
  forall (L : Lib) (this : AggregatorAccount.t) (params : AggregatorOpenRoundParams)
         (l : Ledger) (crankAccount : CrankAccount.t) (crank : CrankAccountData)
         (stateKey leaseKey escrowKey : PublicKey) (stateBump : Z),
    toBuffer (programId (program this)) = toBuffer (programId (program crankAccount)) ->
    toBuffer (publicKey (oracleQueueAccount params)) = toBuffer (queuePubkey crank) ->
    findProgramAddressSync L [Buffer_from "SB_STATE_V1"]
      (toBuffer (programId (program this))) = Return (stateKey, stateBump) ->
    funded L crankAccount crank (world l) (publicKey this) leaseKey escrowKey ->
    exists c,
      AggregatorAccount_openRound_call L this params l = Return c
      /\ AggregatorAccount_openRound L this params l = rpc_aggregatorOpenRound l c
      /\ or_lease c = leaseKey
      /\ or_escrow c = escrowKey
      /\ forall remaining,
           CrankAccount.pop_loop_body L crankAccount crank remaining (publicKey this)
             (world l)
           = Return (remaining ++ [or_lease c; or_escrow c]).
Proof.
  intros L this params l crankAccount crank stateKey leaseKey escrowKey stateBump
         Hprogram Hqueue Hstate Hfunded.
  pose proof Hfunded as [[leaseBump Hlease] Hfetch].
  unfold lease_seeds, toBytes in Hlease. rewrite <- Hqueue, <- Hprogram in Hlease.
  pose proof (openRound_call_run L this params l stateKey leaseKey stateBump leaseBump
                (mkLeaseAccountData escrowKey) Hstate Hlease Hfetch) as Hcall.
  eexists. split; [exact Hcall|].
  split; [unfold AggregatorAccount_openRound, bind_l, call_l; now rewrite Hcall|].
  split; [reflexivity|]. split; [reflexivity|].
  intros remaining. simpl. now apply pop_loop_body_funded.
Qed.

Lemma X5_witness :
  exists c,
    AggregatorAccount_openRound_call Sample.lib Sample.aggregator_account
      (mkAggregatorOpenRoundParams Sample2.permission_account Sample2.queue_account
         Sample.walletKey)
      (Sample2.ledger Sample2.w0 Sample2.three_oracles) = Return c
    /\ or_lease c = Sample.lease_key Sample.two_due Sample.keyA.
Proof.
  edestruct (X5_openRound_submits_the_lease_pop_resolves
               Sample.lib Sample.aggregator_account
               (mkAggregatorOpenRoundParams Sample2.permission_account
                  Sample2.queue_account Sample.walletKey)
               (Sample2.ledger Sample2.w0 Sample2.three_oracles)
               Sample.crank_account Sample.two_due)
    as (c & Hc & _ & Hlease & _).
  - reflexivity.
  - reflexivity.
  - reflexivity.
  - split; [eexists; reflexivity | reflexivity].
  - exists c. split; [exact Hc | exact Hlease].
Defined.

(** X6: when the store throws on the lease record of the aggregator on the
    given queue, [openRound] throws that error and hands nothing to the
    ledger client. *)
Theorem X6_openRound_aborts_without_lease :
  forall (L : Lib) (this : AggregatorAccount.t) (params : AggregatorOpenRoundParams)
         (l : Ledger) (stateKey leaseKey : PublicKey) (stateBump leaseBump : Z)
         (e : JsError),
    findProgramAddressSync L [Buffer_from "SB_STATE_V1"]
      (toBuffer (programId (program this))) = Return (stateKey, stateBump) ->
    findProgramAddressSync L
      [Buffer_from "lease_account"; toBytes (publicKey this);
       toBytes (publicKey (oracleQueueAccount params))]
      (toBuffer (programId (program this))) = Return (leaseKey, leaseBump) ->
    leaseAccountData_fetch (world l) (toBuffer leaseKey) = Throw e ->
    AggregatorAccount_openRound_call L this params l = Throw e
    /\ AggregatorAccount_openRound L this params l = Throw e.
Proof.
  intros L this params l stateKey leaseKey stateBump leaseBump e Hstate Hlease Hfetch.
  assert (Hc : AggregatorAccount_openRound_call L this params l = Throw e).
  { unfold AggregatorAccount_openRound_call, bind_l, in_world, ret_l,
      ProgramStateAccount.fromSeed, LeaseAccount.fromSeed, LeaseAccount.loadData,
      bind, lift, call, ret.
    rewrite Hstate. simpl. rewrite Hlease. simpl. now rewrite Hfetch. }
  split; [exact Hc|]. unfold AggregatorAccount_openRound, bind_l. now rewrite Hc.
Qed.

Lemma X6_witness :
  AggregatorAccount_openRound Sample.lib Sample.aggregator_account
    (mkAggregatorOpenRoundParams Sample2.permission_account Sample2.queue_account
       Sample.walletKey)
    (Sample2.ledger
       (Sample.world 0 Sample.two_due (Sample.no_leases (Error "Account does not exist")))
       Sample2.three_oracles)
  = Throw (Error "Account does not exist").
Proof.
  eapply (X6_openRound_aborts_without_lease Sample.lib Sample.aggregator_account);
    reflexivity.
Defined.

(* ================================================================== *)
(** * 16. [ProgramStateAccount.vaultTransfer]                          *)
(* ================================================================== *)

(** X7: [vaultTransfer] submits the derived state address (not the wrapper's
    own key), the vault named in the record stored at the wrapper's key, and
    the provider's wallet as authority: the [authority] keypair it is given
    plays no part, two calls that differ only in it submit the same call.
    When the state record cannot be fetched it throws the store's error. *)
Theorem X7_vaultTransfer_ignores_authority_argument :
  forall (L : Lib) (this : ProgramStateAccount.t) (to : PublicKey)
         (params : VaultTransferParams) (l : Ledger)
         (stateKey : PublicKey) (stateBump : Z),
    findProgramAddressSync L [Buffer_from "SB_STATE_V1"]
      (toBuffer (programId (program this))) = Return (stateKey, stateBump) ->
    (forall (state : SbState) (authority authority' : Keypair),
        sbState_fetch l (toBuffer (publicKey this)) = Return state ->
        ProgramStateAccount_vaultTransfer L this to authority params l
        = rpc_vaultTransfer l
            (mkVaultTransferCall stateBump (amount params) stateKey to
               (tokenVault state) (provider_wallet (program this)))
        /\ ProgramStateAccount_vaultTransfer L this to authority params l
           = ProgramStateAccount_vaultTransfer L this to authority' params l)
    /\
    (forall (e : JsError) (authority : Keypair),
        sbState_fetch l (toBuffer (publicKey this)) = Throw e ->
        ProgramStateAccount_vaultTransfer L this to authority params l = Throw e).
Proof.
  intros L this to params l stateKey stateBump Hstate.
  split.
  - intros state authority authority' Hfetch. split; [|reflexivity].
    unfold ProgramStateAccount_vaultTransfer, ProgramStateAccount_vaultTransfer_call,
      ProgramStateAccount_loadData, bind_l, call_l, in_world, lift, ret_l.
    rewrite Hstate. simpl. now rewrite Hfetch.
  - intros e authority Hfetch.
    unfold ProgramStateAccount_vaultTransfer, ProgramStateAccount_vaultTransfer_call,
      ProgramStateAccount_loadData, bind_l, call_l, in_world, lift, ret_l.
    rewrite Hstate. simpl. now rewrite Hfetch.
Qed.

Lemma X7_witness :
  ProgramStateAccount_vaultTransfer Sample.lib Sample2.state_account
    Sample2.recipientKey Sample2.oracle_keypair (mkVaultTransferParams 5)
    (Sample2.ledger Sample2.w0 Sample2.three_oracles)
  = ProgramStateAccount_vaultTransfer Sample.lib Sample2.state_account
      Sample2.recipientKey Sample2.other_keypair (mkVaultTransferParams 5)
      (Sample2.ledger Sample2.w0 Sample2.three_oracles).
Proof.
  edestruct (X7_vaultTransfer_ignores_authority_argument
               Sample.lib Sample2.state_account Sample2.recipientKey
               (mkVaultTransferParams 5)
               (Sample2.ledger Sample2.w0 Sample2.three_oracles))
    as [Hrun _].
  - reflexivity.
  - apply (Hrun (mkSbState Sample2.mintKey Sample2.vaultKey)). reflexivity.
Defined.

(* ================================================================== *)
(** * 17. More on [CrankAccount.peakReady] and [CrankAccount.pop]      *)
(* ================================================================== *)

Lemma subsequence_refl {A} (l : list A) : subsequence l l.
Proof. induction l; constructor; assumption. Qed.

Lemma subsequence_trans {A} (a b c : list A) :
  subsequence a b -> subsequence b c -> subsequence a c.
Proof.
  intros Hab Hbc. revert a Hab.
  induction Hbc as [l|x s l Hbc IH|x s l Hbc IH]; intros a Hab.
  - inversion Hab; subst. constructor.
  - inversion Hab; subst.
    + constructor.
    + constructor. now apply IH.
    + apply subsequence_skip. now apply IH.
  - apply subsequence_skip. now apply IH.
Qed.

Lemma subsequence_filter {A} (f : A -> bool) (l : list A) : subsequence (filter f l) l.
Proof.
  induction l as [|x l IH]; simpl; [constructor|].
  destruct (f x); constructor; assumption.
Qed.

Lemma subsequence_firstn {A} (k : nat) (l : list A) : subsequence (firstn k l) l.
Proof.
  revert l. induction k as [|k IH]; intros [|x l]; simpl; constructor. apply IH.
Qed.

Lemma subsequence_map {A B} (f : A -> B) (s l : list A) :
  subsequence s l -> subsequence (map f s) (map f l).
Proof. induction 1; simpl; constructor; assumption. Qed.

Lemma Array_slice0_subsequence {A} (n : Z) (l : list A) : subsequence (Array_slice0 n l) l.
Proof. unfold Array_slice0. apply subsequence_firstn. Qed.

(** X8: [peakReady] never reorders.  Whatever the run time's [<] on Buffers
    answers, the addresses it returns are those of the rows that pass the
    filter among the first [pqSize] rows, in stored order and cut to the limit:
    a subsequence of the stored addresses, each passing the filter, at most
    [n] of them. *)
Theorem X8_peakReady_keeps_stored_order :
  forall (L : Lib) (this : CrankAccount.t) (n : Z) (w : World)
         (crank : CrankAccountData),
    crankAccountData_fetch w (toBuffer (publicKey this)) = Return crank ->
    exists keys,
      CrankAccount.peakReady L this n w = Return keys
      /\ keys = map pubkey (Array_slice0 n (passing_rows crank (Date_now w)))
      /\ subsequence keys
           (map pubkey (Array_slice0 (pqSize crank) (pqData crank)))
      /\ (0 <= n -> Z.of_nat (List.length keys) <= n).
Proof.
  intros L this n w crank Hload. rewrite peakReady_run, Hload.
  eexists. split; [reflexivity|]. unfold stored_order_prefix.
  split; [reflexivity|]. split.
  - apply subsequence_map.
    eapply subsequence_trans; [apply Array_slice0_subsequence|].
    apply subsequence_filter.
  - intros Hn. rewrite length_map. now apply Array_slice0_length.
Qed.

Lemma X8_witness :
  exists keys,
    CrankAccount.peakReady Sample.lib Sample.crank_account 10 Sample2.w0 = Return keys
    /\ subsequence keys [Sample.keyB; Sample.keyA].
Proof.
  destruct (X8_peakReady_keeps_stored_order Sample.lib Sample.crank_account 10
              Sample2.w0 Sample.two_due eq_refl)
    as (keys & Hrun & _ & Hsub & _).
  exists keys. split; [exact Hrun | exact Hsub].
Defined.

(** X9: the limit of [peakReady] at its edges.  A limit of 0 yields the empty
    sequence; a limit at least the number of passing rows yields all of them;
    a negative limit does not fail but leaves out that many passing rows from
    the end (the semantics of [slice(0, n)]). *)
Theorem X9_peakReady_limit_edges :
  forall (L : Lib) (this : CrankAccount.t) (n : Z) (w : World)
         (crank : CrankAccountData),
    crankAccountData_fetch w (toBuffer (publicKey this)) = Return crank ->
    let passing := passing_rows crank (Date_now w) in
    (n = 0 -> CrankAccount.peakReady L this n w = Return [])
    /\ (Z.of_nat (List.length passing) <= n ->
        CrankAccount.peakReady L this n w = Return (map pubkey passing))
    /\ (n < 0 ->
        CrankAccount.peakReady L this n w
        = Return (map pubkey
                    (firstn (List.length passing - Z.to_nat (- n)) passing))).
Proof.
  intros L this n w crank Hload passing.
  rewrite peakReady_run, Hload. unfold stored_order_prefix.
  fold (passing_rows crank (Date_now w)). fold passing.
  split; [|split].
  - intros ->. unfold Array_slice0. simpl. rewrite Z.min_l by lia. reflexivity.
  - intros Hn. now rewrite Array_slice0_all.
  - intros Hn. unfold Array_slice0.
    destruct (Z.ltb_spec n 0); [|lia].
    do 3 f_equal. lia.
Qed.

Lemma X9_witness :
  CrankAccount.peakReady Sample.lib Sample.crank_account (-1) Sample2.w0
  = Return [Sample.keyB].
Proof.
  apply (proj2 (proj2 (X9_peakReady_limit_edges Sample.lib Sample.crank_account (-1)
                         Sample2.w0 Sample.two_due eq_refl))).
  reflexivity.
Defined.

(** X10: on a structure whose due times are non-negative and print as wide
    as the clock reading in seconds (ten digits from 2001 to 2286),
    [peakReady] returns only addresses of due rows, no more of them than are
    due, all of them when the limit allows, in stored order. *)
Theorem X10_peakReady_returns_due_rows_on_equal_width :
  forall (L : Lib) (this : CrankAccount.t) (n : Z) (w : World)
         (crank : CrankAccountData),
    crankAccountData_fetch w (toBuffer (publicKey this)) = Return crank ->
    0 <= Date_now w / 1000 ->
    Forall (fun row => 0 <= nextTimestamp row
                       /\ same_width (nextTimestamp row) (Date_now w / 1000))
           (pqData crank) ->
    let ready := filter (due (Date_now w)) (Array_slice0 (pqSize crank) (pqData crank)) in
    exists keys,
      CrankAccount.peakReady L this n w = Return keys
      /\ keys = map pubkey (Array_slice0 n ready)
      /\ (forall k, In k keys ->
            exists row, In row (pqData crank) /\ pubkey row = k /\
                        nextTimestamp row <= Date_now w / 1000)
      /\ (List.length keys <= List.length ready)%nat
      /\ (Z.of_nat (List.length ready) <= n -> keys = map pubkey ready).
Proof.
  intros L this n w crank Hload Hnow Hrows.
  exact (peakReady_same_width L this n w crank Hload Hnow Hrows).
Qed.

Lemma X10_witness :
  exists keys,
    CrankAccount.peakReady Sample.lib Sample.crank_account 10
      (Sample.world 1600000150000 Sample.scenario_wide Sample.all_leases)
    = Return keys
    /\ keys = [Sample.keyA; Sample.keyB].
Proof.
  destruct (X10_peakReady_returns_due_rows_on_equal_width
              Sample.lib Sample.crank_account 10
              (Sample.world 1600000150000 Sample.scenario_wide Sample.all_leases)
              Sample.scenario_wide eq_refl)
    as (keys & Hrun & Hkeys & _).
  - vm_compute. discriminate.
  - repeat (constructor; [split; [vm_compute; discriminate | reflexivity]|]).
    constructor.
  - exists keys. split; [exact Hrun|]. rewrite Hkeys. reflexivity.
Defined.

Lemma pop_loop_body_returns (L : Lib) (this : CrankAccount.t) (crank : CrankAccountData)
      (w : World) (acc acc' : list PublicKey) (t : PublicKey) :
  CrankAccount.pop_loop_body L this crank acc t w = Return acc' ->
  exists l e, acc' = acc ++ [l; e].
Proof.
  unfold CrankAccount.pop_loop_body, LeaseAccount.fromSeed, LeaseAccount.loadData,
    bind, lift, call, ret. simpl.
  destruct (findProgramAddressSync L _ _) as [[k b]|err]; simpl; [|discriminate].
  destruct (leaseAccountData_fetch w (toBuffer k)) as [lease|err]; [|discriminate].
  intros H. injection H as <-. eauto.
Qed.

Lemma for_of_pop_length (L : Lib) (this : CrankAccount.t) (crank : CrankAccountData)
      (w : World) (items acc acc' : list PublicKey) :
  for_of items (CrankAccount.pop_loop_body L this crank) acc w = Return acc' ->
  List.length acc' = (List.length acc + 2 * List.length items)%nat.
Proof.
  revert acc. induction items as [|t items IH]; intros acc; simpl.
  - unfold ret. intros H. injection H as <-. lia.
  - unfold bind.
    destruct (CrankAccount.pop_loop_body L this crank acc t w) as [acc1|e] eqn:Hbody;
      [|discriminate].
    intros H. apply IH in H.
    apply pop_loop_body_returns in Hbody. destruct Hbody as (l & e & ->).
    rewrite length_app in H. simpl in H. lia.
Qed.

(** X11: whenever [pop] gets as far as the ledger client, the account list it
    submits holds three entries per selected feed and at most 30 entries (it
    selects with the fixed limit 10), every entry writable and none a signer;
    the call names the wrapper's own crank and the caller's payout wallet. *)
Theorem X11_pop_submits_at_most_thirty_accounts :
  forall (L : Lib) (this : CrankAccount.t) (params : CrankPopParams) (w : World)
         (c : CrankPopCall),
    CrankAccount.pop_call L this params w = Return c ->
    CrankAccount.pop L this params w = rpc_crankPop w c
    /\ (exists selected,
           CrankAccount.peakReady L this 10 w = Return selected
           /\ (List.length selected <= 10)%nat
           /\ List.length (remainingAccounts c) = (3 * List.length selected)%nat)
    /\ (List.length (remainingAccounts c) <= 30)%nat
    /\ Forall (fun m => isSigner m = false /\ isWritable m = true) (remainingAccounts c)
    /\ acc_crank c = publicKey this
    /\ acc_payoutWallet c = payoutWallet params.
Proof.
  intros L this params w c Hcall.
  split; [unfold CrankAccount.pop, bind, call; now rewrite Hcall|].
  unfold CrankAccount.pop_call, bind, CrankAccount.loadData, call in Hcall.
  destruct (crankAccountData_fetch w (toBuffer (publicKey this))) as [crank|e] eqn:Hload;
    [|discriminate].
  destruct (CrankAccount.peakReady L this 10 w) as [selected|e] eqn:Hready;
    [|discriminate].
  destruct (CrankAccount.pop_remainingAccounts L this crank selected w)
    as [accounts|e] eqn:Hacc; [|discriminate].
  destruct (ProgramStateAccount.fromSeed L (program this) w) as [[state bump]|e];
    [|discriminate].
  unfold ret in Hcall. injection Hcall as <-. simpl.
  assert (Hsel : (List.length selected <= 10)%nat).
  { destruct (peakReady_general L this 10 w crank Hload) as (keys & Hk & Hlen & _).
    rewrite Hready in Hk. injection Hk as <-.
    specialize (Hlen ltac:(lia)). lia. }
  assert (Hlen : List.length accounts = (3 * List.length selected)%nat).
  { unfold CrankAccount.pop_remainingAccounts, bind, ret in Hacc.
    destruct (for_of selected (CrankAccount.pop_loop_body L this crank) selected w)
      as [unsorted|e] eqn:Hloop; [|discriminate].
    injection Hacc as <-. rewrite Array_sort_length.
    apply for_of_pop_length in Hloop. lia. }
  rewrite length_map.
  split; [exists selected; auto|].
  split; [lia|]. split; [|split; reflexivity].
  apply Forall_forall. intros m Hm. apply in_map_iff in Hm.
  destruct Hm as (k & <- & _). split; reflexivity.
Qed.

Lemma X11_witness :
  exists c,
    CrankAccount.pop_call Sample.lib Sample.crank_account
      (mkCrankPopParams Sample.walletKey) Sample2.w0 = Return c
    /\ List.length (remainingAccounts c) = 6%nat.
Proof.
  eexists. split; [reflexivity|].
  edestruct (X11_pop_submits_at_most_thirty_accounts Sample.lib Sample.crank_account
               (mkCrankPopParams Sample.walletKey) Sample2.w0)
    as (_ & (selected & Hsel & _ & Hlen) & _); [reflexivity|].
  rewrite Hlen. rewrite peakReady_run in Hsel. injection Hsel as <-. reflexivity.
Defined.

(** X12: [pop] does not stop when nothing is ready.  When no row of the loaded
    crank passes the filter (an empty crank included), it fetches no lease
    record and still submits the pop instruction, with an empty account
    list, returning whatever the ledger client answers. *)
Theorem X12_pop_with_nothing_ready_still_submits :
  forall (L : Lib) (this : CrankAccount.t) (params : CrankPopParams) (w : World)
         (crank : CrankAccountData) (stateKey : PublicKey) (stateBump : Z),
    crankAccountData_fetch w (toBuffer (publicKey this)) = Return crank ->
    passing_rows crank (Date_now w) = [] ->
    findProgramAddressSync L [Buffer_from "SB_STATE_V1"]
      (toBuffer (programId (program this))) = Return (stateKey, stateBump) ->
    CrankAccount.pop L this params w
    = rpc_crankPop w
        (mkCrankPopCall stateBump (publicKey this) (queuePubkey crank) stateKey
           (payoutWallet params) []).
Proof.
  intros L this params w crank stateKey stateBump Hload Hnone Hstate.
  assert (Hready : CrankAccount.peakReady L this 10 w = Return []).
  { rewrite peakReady_run, Hload. unfold stored_order_prefix.
    fold (passing_rows crank (Date_now w)). now rewrite Hnone. }
  unfold CrankAccount.pop, bind, call.
  rewrite (pop_call_run L this params w crank [] [] stateKey stateBump);
    try assumption; reflexivity.
Qed.

Lemma X12_witness :
  CrankAccount.pop Sample.lib Sample.crank_account (mkCrankPopParams Sample.walletKey)
    (Sample.world 1500000000000 Sample.two_due
       (Sample.no_leases (Error "Account does not exist")))
  = Return "signature"%string.
Proof.
  erewrite (X12_pop_with_nothing_ready_still_submits Sample.lib Sample.crank_account
              (mkCrankPopParams Sample.walletKey) _ Sample.two_due);
    reflexivity.
Defined.

(* ================================================================== *)
(** * 18. The value of [SwitchboardDecimal.toBig]                      *)
(* ================================================================== *)





